(** * ChGK_NER: the two question scrapers, embedded in Rocq

    [src/scraper_gq.py] (gotquestions.online, "Pipeline B") and
    [src/scraper_db.py] (db.chgk.info, "Pipeline A") are translated function
    by function.  Python values that come out of a JSON decoder are the
    inductive [json]; a Python call that may raise returns a [result]; code
    that talks to the network or sleeps runs in the monad [M] over an explicit
    [world]. *)

From Stdlib Require Import List ZArith QArith Bool String Ascii Lia.
From Stdlib Require Import Permutation DecimalString.
Import ListNotations.

Set Warnings "-register-all".

(* ================================================================== *)
(** * Python values and exceptions *)
(* ================================================================== *)

Module Py.

Local Open Scope Z_scope.

(** The exception classes the two scripts raise or catch. *)
Inductive exn : Set :=
| KeyError | IndexError | TypeError | AttributeError | ValueError
| SyntaxError | JSONDecodeError | ConnectionError | RequestException.

(** Exception classes an [except] clause can name.  [Exception] is the root;
    [requests.exceptions.ConnectionError] derives from [RequestException];
    [json.JSONDecodeError] derives from [ValueError]. *)
Inductive exn_class : Set :=
| Exception | OnlyClass (e : exn).

Definition exn_eqb (a b : exn) : bool :=
  match a, b with
  | KeyError, KeyError | IndexError, IndexError | TypeError, TypeError
  | AttributeError, AttributeError | ValueError, ValueError
  | SyntaxError, SyntaxError | JSONDecodeError, JSONDecodeError
  | ConnectionError, ConnectionError
  | RequestException, RequestException => true
  | _, _ => false
  end.

(** [isinstance e c]: does [except c] catch [e]? *)
Definition isinstance (e : exn) (c : exn_class) : bool :=
  match c with
  | Exception => true
  | OnlyClass RequestException =>
      exn_eqb e RequestException || exn_eqb e ConnectionError
  | OnlyClass ValueError => exn_eqb e ValueError || exn_eqb e JSONDecodeError
  | OnlyClass k => exn_eqb e k
  end.

Definition caught_by (e : exn) (cs : list exn_class) : bool :=
  existsb (isinstance e) cs.

(** The outcome of evaluating a Python expression. *)
Inductive result (A : Type) : Type :=
| Ok (a : A)
| Raise (e : exn).
Arguments Ok {A} a.
Arguments Raise {A} e.

Definition rbind {A B} (r : result A) (k : A -> result B) : result B :=
  match r with
  | Ok a => k a
  | Raise e => Raise e
  end.

(** [try: body except cs1: h1 except cs2: h2 ...]: the first clause whose
    classes catch the exception handles it. *)
Fixpoint handle {A} (e : exn)
    (clauses : list (list exn_class * (exn -> result A))) : result A :=
  match clauses with
  | [] => Raise e
  | (cs, handler) :: rest =>
      if caught_by e cs then handler e else handle e rest
  end.

Definition try_except {A} (body : result A)
    (clauses : list (list exn_class * (exn -> result A))) : result A :=
  match body with
  | Ok a => Ok a
  | Raise e => handle e clauses
  end.

(** A decoded JSON document; [JNull] is Python's [None].  Numbers are the
    integers (the scripts do no arithmetic on payload numbers). *)
Inductive json : Type :=
| JNull
| JBool (b : bool)
| JNum (n : Z)
| JStr (s : string)
| JArr (items : list json)
| JObj (fields : list (string * json)).

Definition dict := list (string * json).

(** Structural induction through the lists inside a document. *)
Section Induction.
Variable P : json -> Prop.
Hypothesis PNull : P JNull.
Hypothesis PBool : forall b, P (JBool b).
Hypothesis PNum : forall n, P (JNum n).
Hypothesis PStr : forall s, P (JStr s).
Hypothesis PArr : forall items, Forall P items -> P (JArr items).
Hypothesis PObj :
  forall fields, Forall (fun kv => P (snd kv)) fields -> P (JObj fields).

Fixpoint json_induction (v : json) : P v :=
  match v with
  | JNull => PNull
  | JBool b => PBool b
  | JNum n => PNum n
  | JStr s => PStr s
  | JArr items =>
      PArr items ((fix all (l : list json) : Forall P l :=
               match l with
               | [] => Forall_nil _
               | x :: l' => Forall_cons x (json_induction x) (all l')
               end) items)
  | JObj fields =>
      PObj fields ((fix all (l : list (string * json))
               : Forall (fun kv => P (snd kv)) l :=
               match l with
               | [] => Forall_nil _
               | kv :: l' => Forall_cons kv (json_induction (snd kv)) (all l')
               end) fields)
  end.
End Induction.

(** Python truthiness ([if v], [not v]). *)
Definition truthy (v : json) : bool :=
  match v with
  | JNull => false
  | JBool b => b
  | JNum n => negb (n =? 0)
  | JStr s => negb (String.eqb s EmptyString)
  | JArr items => match items with [] => false | _ => true end
  | JObj fields => match fields with [] => false | _ => true end
  end.

Fixpoint lookup (k : string) (d : dict) : option json :=
  match d with
  | [] => None
  | (k', v) :: d' => if String.eqb k k' then Some v else lookup k d'
  end.

(** [k in d] and [d.get(k, default)] on a dict. *)
Definition dict_has (d : dict) (k : string) : bool :=
  match lookup k d with Some _ => true | None => false end.

Definition dict_get (d : dict) (k : string) (default : json) : json :=
  match lookup k d with Some v => v | None => default end.

(** [v.get(k, default)]: only a dict has the method. *)
Definition get (v : json) (k : string) (default : json) : result json :=
  match v with
  | JObj d => Ok (dict_get d k default)
  | _ => Raise AttributeError
  end.

Definition len {A} (l : list A) : Z := Z.of_nat (List.length l).

(** [lst[index]] on a Python list: a negative index counts from the end, an
    index outside [-len, len) raises [IndexError]. *)
Definition list_getitem {A} (lst : list A) (index : Z) : result A :=
  let i := if index <? 0 then index + len lst else index in
  if (0 <=? i) && (i <? len lst)
  then match nth_error lst (Z.to_nat i) with
       | Some x => Ok x
       | None => Raise IndexError
       end
  else Raise IndexError.

(** A Python [str] is held as its UTF-8 encoding, one [ascii] per byte.  A
    byte [10xxxxxx] continues the code point that the bytes before it
    began. *)
Definition continuation (c : ascii) : bool :=
  match c with
  | Ascii _ _ _ _ _ _ b6 b7 => b7 && negb b6
  end.

Definition begins_inside (s : string) : bool :=
  match s with
  | String c _ => continuation c
  | EmptyString => false
  end.

(** The characters (code points) of a [str], each as a string of its own. *)
Fixpoint code_points (s : string) : list string :=
  match s with
  | EmptyString => []
  | String c s' =>
      match code_points s' with
      | p :: ps =>
          if begins_inside s' then String c p :: ps
          else String c EmptyString :: p :: ps
      | [] => [String c EmptyString]
      end
  end.

(** [len(s)] of a [str]: the number of its characters. *)
Definition str_len (s : string) : nat := List.length (code_points s).

Definition chars (s : string) : list json := map JStr (code_points s).

(** [v[i]] with an integer subscript. *)
Definition getitem_int (v : json) (i : Z) : result json :=
  match v with
  | JArr items => list_getitem items i
  | JStr s => list_getitem (chars s) i
  | JObj _ => Raise KeyError
  | JNull | JBool _ | JNum _ => Raise TypeError
  end.

(** [v[k]] with a string subscript. *)
Definition getitem_str (v : json) (k : string) : result json :=
  match v with
  | JObj d => match lookup k d with
              | Some x => Ok x
              | None => Raise KeyError
              end
  | _ => Raise TypeError
  end.

(** The elements a [for] loop (or [list.extend]) draws from [v]. *)
Definition iter (v : json) : result (list json) :=
  match v with
  | JArr items => Ok items
  | JObj d => Ok (map (fun kv => JStr (fst kv)) d)
  | JStr s => Ok (chars s)
  | JNull | JBool _ | JNum _ => Raise TypeError
  end.

(** Equality of decoded values ([==] on them). *)
Fixpoint json_eqb (a b : json) {struct a} : bool :=
  match a, b with
  | JNull, JNull => true
  | JBool x, JBool y => Bool.eqb x y
  | JNum x, JNum y => x =? y
  | JStr x, JStr y => String.eqb x y
  | JArr xs, JArr ys =>
      (fix all2 (xs ys : list json) {struct xs} : bool :=
         match xs, ys with
         | [], [] => true
         | x :: xs', y :: ys' => json_eqb x y && all2 xs' ys'
         | _, _ => false
         end) xs ys
  | JObj xs, JObj ys =>
      (fix all2 (xs ys : list (string * json)) {struct xs} : bool :=
         match xs, ys with
         | [], [] => true
         | (k, x) :: xs', (k', y) :: ys' =>
             String.eqb k k' && json_eqb x y && all2 xs' ys'
         | _, _ => false
         end) xs ys
  | _, _ => false
  end.

(** [str(n)] of an integer, as an f-string renders it. *)
Definition str_int (n : Z) : string := NilZero.string_of_int (Z.to_int n).

(** [str(v)] of a decoded value inside an f-string.  A list or a dict is
    rendered by Python's [repr], which is left as the parameter [repr]. *)
Definition str (repr : json -> string) (v : json) : string :=
  match v with
  | JNull => "None"
  | JBool true => "True"
  | JBool false => "False"
  | JNum n => str_int n
  | JStr s => s
  | JArr _ | JObj _ => repr v
  end.

(** [len(v)]. *)
Definition py_len (v : json) : result Z :=
  match v with
  | JArr items => Ok (len items)
  | JObj d => Ok (len d)
  | JStr s => Ok (len (chars s))
  | JNull | JBool _ | JNum _ => Raise TypeError
  end.

End Py.

Import Py.

(* ================================================================== *)
(** * The network and the clock *)
(* ================================================================== *)

Module Net.

(** What one [session.get(url)] followed by [raise_for_status()] meets. *)
Inductive outcome (B : Type) : Type :=
| ConnectionFailed          (* requests.exceptions.ConnectionError *)
| RequestFailed             (* any other RequestException, HTTPError included *)
| Response (body : B).
Arguments ConnectionFailed {B}.
Arguments RequestFailed {B}.
Arguments Response {B} body.

(** The world a run sees.  [net n url] is what the [n]-th request of the run
    meets when it goes to [url]; [uniform n a b] is the [n]-th draw of
    [random.uniform(a, b)].  The run leaves its trace in [requested] (URLs,
    oldest first) and [slept] (arguments of [time.sleep], oldest first).
    Seconds are rationals. *)
Record world (B : Type) : Type := World {
  net : nat -> string -> outcome B;
  uniform : nat -> Q -> Q -> Q;
  requested : list string;
  slept : list Q;
  draws : nat
}.
Arguments World {B}.
Arguments net {B}.
Arguments uniform {B}.
Arguments requested {B}.
Arguments slept {B}.
Arguments draws {B}.

(** Effectful Python code: a state monad over [world] that may raise. *)
Definition M (B A : Type) : Type := world B -> result A * world B.

Definition ret {B A} (a : A) : M B A := fun w => (Ok a, w).

Definition raise {B A} (e : exn) : M B A := fun w => (Raise e, w).

Definition bind {B A C} (m : M B A) (k : A -> M B C) : M B C :=
  fun w => match m w with
           | (Ok a, w') => k a w'
           | (Raise e, w') => (Raise e, w')
           end.

Definition lift {B A} (r : result A) : M B A := fun w => (r, w).

(** [try: body except cs1: h1 except cs2: h2 ...] around effectful code. *)
Fixpoint handle_in {B A} (e : exn)
    (clauses : list (list exn_class * (exn -> M B A))) : M B A :=
  match clauses with
  | [] => raise e
  | (cs, handler) :: rest =>
      if caught_by e cs then handler e else handle_in e rest
  end.

Definition try_catch {B A} (body : M B A)
    (clauses : list (list exn_class * (exn -> M B A))) : M B A :=
  fun w => match body w with
           | (Ok a, w') => (Ok a, w')
           | (Raise e, w') => handle_in e clauses w'
           end.

(** [time.sleep(seconds)]: a negative argument raises [ValueError]. *)
Definition sleep {B} (seconds : Q) : M B unit :=
  fun w =>
    if Qle_bool 0 seconds
    then (Ok tt, World (net w) (uniform w) (requested w)
                       (slept w ++ [seconds]) (draws w))
    else (Raise ValueError, w).

(** [random.uniform(a, b)]. *)
Definition random_uniform {B} (a b : Q) : M B Q :=
  fun w => (Ok (uniform w (draws w) a b),
            World (net w) (uniform w) (requested w) (slept w) (S (draws w))).

(** [r = session.get(url); r.raise_for_status()]. *)
Definition session_get {B} (url : string) : M B B :=
  fun w =>
    let w' := World (net w) (uniform w) (requested w ++ [url])
                    (slept w) (draws w) in
    match net w (List.length (requested w)) url with
    | ConnectionFailed => (Raise ConnectionError, w')
    | RequestFailed => (Raise RequestException, w')
    | Response body => (Ok body, w')
    end.

(** A world in which nothing has happened yet. *)
Definition fresh {B} (n : nat -> string -> outcome B)
    (u : nat -> Q -> Q -> Q) : world B :=
  World n u [] [] 0.


(** The world after further requests to [urls] and further sleeps [zs]. *)
Definition after {B} (w : world B) (urls : list string) (zs : list Q)
    : world B :=
  World (net w) (uniform w) (requested w ++ urls) (slept w ++ zs) (draws w).

(** What the [k]-th coming request meets if it goes to [url]. *)
Definition coming {B} (w : world B) (k : nat) (url : string) : outcome B :=
  net w (List.length (requested w) + k) url.

(** [for x in xs: acc = body(x, acc)]. *)
Fixpoint for_each {B A S} (xs : list A) (body : A -> S -> M B S) (acc : S)
    : M B S :=
  match xs with
  | [] => ret acc
  | x :: rest => bind (body x acc) (for_each rest body)
  end.

End Net.

Import Net.

Declare Scope py_scope.
Delimit Scope py_scope with py.
Notation "x <- c1 ;; c2" := (bind c1 (fun x => c2))
  (at level 61, c1 at next level, right associativity) : py_scope.
Notation "c1 ;; c2" := (bind c1 (fun _ => c2))
  (at level 61, right associativity) : py_scope.
Notation "x <~ r ;; c2" := (rbind r (fun x => c2))
  (at level 61, r at next level, right associativity) : py_scope.

(* ================================================================== *)
(** * src/scraper_gq.py *)
(* ================================================================== *)

Module ScraperGq.

Local Open Scope string_scope.
Local Open Scope Z_scope.
Local Open Scope py_scope.

Definition URL_BASE : string := "https://gotquestions.online".
Definition RETRIES : Z := 3.

(** [safe_get(lst, index, default)]: [len], the comparison and the subscript
    are Python's, on whatever value [lst] is. *)
Definition safe_get (lst : json) (index : Z) (default : json) : result json :=
  n <~ py_len lst ;;
  if (- n <=? index) && (index <? n)
  then getitem_int lst index
  else Ok default.

(** ** String methods used by [extract_json_from_script] *)

(** [data.find(c)]: index of the first [c], [-1] when there is none. *)
Fixpoint find_from (c : ascii) (data : list ascii) (i : Z) : Z :=
  match data with
  | [] => -1
  | x :: rest => if Ascii.eqb x c then i else find_from c rest (i + 1)
  end.
Definition find (data : list ascii) (c : ascii) : Z := find_from c data 0.

(** [data.rfind(c)]: index of the last [c], [-1] when there is none. *)
Fixpoint rfind_from (c : ascii) (data : list ascii) (i best : Z) : Z :=
  match data with
  | [] => best
  | x :: rest => rfind_from c rest (i + 1) (if Ascii.eqb x c then i else best)
  end.
Definition rfind (data : list ascii) (c : ascii) : Z := rfind_from c data 0 (-1).

(** [data[start:stop]]: a negative bound counts from the end, both are
    clamped to the string. *)
Definition slice (data : list ascii) (start stop : Z) : list ascii :=
  let n := len data in
  let norm i := if i <? 0 then Z.max 0 (i + n) else Z.min i n in
  firstn (Z.to_nat (norm stop - norm start)) (skipn (Z.to_nat (norm start)) data).

Definition in_set (set : list ascii) (c : ascii) : bool :=
  existsb (Ascii.eqb c) set.

(** [data.lstrip(set)] and [data.rstrip(set)]: drop the leading (trailing)
    characters that belong to [set]. *)
Fixpoint lstrip (set data : list ascii) : list ascii :=
  match data with
  | [] => []
  | x :: rest => if in_set set x then lstrip set rest else data
  end.
Definition rstrip (set data : list ascii) : list ascii :=
  rev (lstrip set (rev data)).

(** [max(scripts, key=lambda x: len(x.get_text()), default=None)]: the first
    script of maximal text length, the length counted in characters. *)
Definition longest (scripts : list string) : option string :=
  match scripts with
  | [] => None
  | first :: rest =>
      Some (fold_left
              (fun best x =>
                 if (str_len best <? str_len x)%nat then x else best)
              rest first)
  end.

Definition quote : ascii := ascii_of_nat 34.
Definition backslash : ascii := ascii_of_nat 92.

(** A scraped question: the dictionary [processed_data], one row of the
    data frame. *)
Record processed_data : Type := Processed {
  q_id : json; q_number : json; q_text : json; q_razdatkaText : json;
  q_razdatkaPic : json; q_answer : json; q_zachet : json; q_comment : json;
  q_source : json; q_author : json; q_title : json; q_date : json
}.

(** How the retry loop of a fetcher is left. *)
Inductive loop_exit : Type :=
| Break (response : string)     (* [break], with the response *)
| ReturnNone                    (* [return None] inside the loop *)
| Exhausted.                    (* [range(RETRIES)] ran out: [response] is [None] *)

Section Fetchers.

(** The library calls whose results the script only passes along.
    [BeautifulSoup text] stands for
    [[x.get_text() for x in BeautifulSoup(text, "html.parser").find_all("script")]];
    [literal_eval] and [json_loads] are [ast.literal_eval] (folding a
    non-string result into the [TypeError] that [json.loads] then raises) and
    [json.loads]. *)
Variable BeautifulSoup : string -> list string.
Variable literal_eval : string -> result string.
Variable json_loads : string -> result json.
Variable repr : json -> string.

(** [extract_json_from_script(soup)]; a tag is always truthy, so [not data]
    holds only for the default [None]. *)
Definition extract_json_from_script (soup : list string) : result (option json) :=
  try_except
    (match longest soup with
     | None => Ok None
     | Some text =>
         let data := list_ascii_of_string text in
         let start_index := find data quote + 1 in
         let end_index := rfind data quote in
         let data_string_with_prefix := slice data start_index end_index in
         let json_string :=
           lstrip (list_ascii_of_string "1234567890:") data_string_with_prefix in
         let json_string := rstrip [backslash; "n"%char] json_string in
         unescaped_string <~
           literal_eval
             (String quote (string_of_list_ascii json_string ++ String quote ""))
           ;;
         v <~ json_loads unescaped_string ;;
         Ok (Some v)
     end)
    [ ([OnlyClass JSONDecodeError; OnlyClass SyntaxError], fun _ => Ok None);
      ([Exception], fun _ => Ok None) ].

(** The request loop shared, up to the URL, by the two fetchers:
    [for attempt in range(RETRIES): try: ... except ConnectionError: ...
    except RequestException: ...].  The body of one turn yields [None] to go
    on with the next attempt. *)
Fixpoint request_loop (url : string) (attempts : list Z)
    : M string loop_exit :=
  match attempts with
  | [] => ret Exhausted
  | attempt :: rest =>
      r <- try_catch
             (response <- session_get url ;; ret (Some (Break response)))
             [ ([OnlyClass ConnectionError],
                fun _ =>
                  if attempt <? RETRIES - 1
                  then
                    let delay := 2 ^ (attempt + 1) in
                    sleep (inject_Z delay) ;; ret None
                  else ret (Some ReturnNone));
               ([OnlyClass RequestException],
                fun _ => ret (Some ReturnNone)) ] ;;
      match r with
      | Some exit => ret exit
      | None => request_loop url rest
      end
  end.

Definition range (n : Z) : list Z := map Z.of_nat (seq 0 (Z.to_nat n)).

Definition request_with_retries (url : string) : M string loop_exit :=
  request_loop url (range RETRIES).

(** [response.text] after the loop: [response] is still [None] when the
    loop ran out without a [break]. *)
Definition response_text (exit : loop_exit) : result string :=
  match exit with
  | Break text => Ok text
  | _ => Raise AttributeError
  end.

(** [[pack["id"] for pack in pack_object]]. *)
Fixpoint pack_ids (packs : list json) : result (list json) :=
  match packs with
  | [] => Ok []
  | pack :: rest =>
      id <~ getitem_str pack "id" ;;
      ids <~ pack_ids rest ;;
      Ok (id :: ids)
  end.

(** The second [try] of [fetch_tournament_ids_from_page]. *)
Definition parse_tournament_ids (exit : loop_exit) : result (option (list json)) :=
  try_except
    (text <~ response_text exit ;;
     let soup := BeautifulSoup text in
     parsed_data <~ extract_json_from_script soup ;;
     match parsed_data with
     | None => Ok None
     | Some parsed_data =>
         if negb (truthy parsed_data) then Ok None
         else
           a <~ getitem_int parsed_data 3 ;;
           b <~ getitem_str a "children" ;;
           c <~ getitem_int b 3 ;;
           pack_object <~ getitem_str c "packs" ;;
           packs <~ iter pack_object ;;
           ids <~ pack_ids packs ;;
           Ok (Some ids)
     end)
    [ ([OnlyClass KeyError; OnlyClass IndexError], fun _ => Ok None) ].

(** [fetch_tournament_ids_from_page(session, page_num)]. *)
Definition fetch_tournament_ids_from_page (page_num : Z)
    : M string (option (list json)) :=
  exit <- request_with_retries (URL_BASE ++ "/?page=" ++ str_int page_num) ;;
  match exit with
  | ReturnNone => ret None
  | _ => lift (parse_tournament_ids exit)
  end.

(** One question of a tour, flattened. *)
Definition process_question (q : json) : result processed_data :=
  id <~ get q "id" JNull ;;
  number <~ get q "number" JNull ;;
  text <~ get q "text" JNull ;;
  razdatkaText <~ get q "razdatkaText" JNull ;;
  razdatkaPic <~ get q "razdatkaPic" JNull ;;
  answer <~ get q "answer" JNull ;;
  zachet <~ get q "zachet" JNull ;;
  comment <~ get q "comment" JNull ;;
  source <~ get q "source" JNull ;;
  authors <~ get q "authors" (JArr []) ;;
  first_author <~ safe_get authors 0 (JObj [("name", JNull)]) ;;
  author <~ get first_author "name" JNull ;;
  title <~ get q "packTitle" JNull ;;
  date <~ get q "endDate" JNull ;;
  Ok (Processed id number text razdatkaText razdatkaPic answer zachet comment
                source author title date).

Fixpoint process_questions (qs : list json) : result (list processed_data) :=
  match qs with
  | [] => Ok []
  | q :: rest =>
      row <~ process_question q ;;
      rows <~ process_questions rest ;;
      Ok (row :: rows)
  end.

(** The two nested [for] loops over tours and questions. *)
Fixpoint process_tours (tours : list json) : result (list processed_data) :=
  match tours with
  | [] => Ok []
  | tour :: rest =>
      questions <~ get tour "questions" (JArr []) ;;
      qs <~ iter questions ;;
      rows <~ process_questions qs ;;
      more <~ process_tours rest ;;
      Ok (rows ++ more)%list
  end.

(** The second [try] of [fetch_questions_from_pack]; the data frame is the
    list of its rows. *)
Definition parse_questions (exit : loop_exit)
    : result (option (list processed_data)) :=
  try_except
    (text <~ response_text exit ;;
     let soup := BeautifulSoup text in
     parsed_data <~ extract_json_from_script soup ;;
     match parsed_data with
     | None => Ok None
     | Some parsed_data =>
         if negb (truthy parsed_data) then Ok None
         else
           a <~ getitem_int parsed_data 3 ;;
           b <~ getitem_str a "children" ;;
           c <~ getitem_int b 3 ;;
           pack_object <~ getitem_str c "pack" ;;
           tours <~ get pack_object "tours" (JArr []) ;;
           tours <~ iter tours ;;
           questions_list <~ process_tours tours ;;
           match questions_list with
           | [] => Ok None
           | _ => Ok (Some questions_list)
           end
     end)
    [ ([OnlyClass KeyError; OnlyClass IndexError], fun _ => Ok None) ].

(** [fetch_questions_from_pack(session, pack_id)]. *)
Definition fetch_questions_from_pack (pack_id : json)
    : M string (option (list processed_data)) :=
  exit <- request_with_retries (URL_BASE ++ "/pack/" ++ str repr pack_id) ;;
  match exit with
  | ReturnNone => ret None
  | _ => lift (parse_questions exit)
  end.

(** The command line of [main]. *)
Record args : Type := Args {
  pages : Z;
  min_delay : Q;
  max_delay : Q
}.

(** [main()], from the first loop on.  The result is the data frame handed
    to [to_parquet], [None] when [main] returns before writing. *)
Definition main (a : args) : M string (option (list processed_data)) :=
  all_tournament_ids <-
    for_each (map (fun p => p + 1) (range (pages a)))
      (fun page all_tournament_ids =>
         d <- random_uniform (min_delay a) (max_delay a) ;;
         sleep d ;;
         ids <- fetch_tournament_ids_from_page page ;;
         match ids with
         | Some ((_ :: _) as ids) => ret (all_tournament_ids ++ ids)%list
         | _ => ret all_tournament_ids
         end)
      [] ;;
  match all_tournament_ids with
  | [] => ret None
  | _ =>
      all_dataframes <-
        for_each all_tournament_ids
          (fun pack_id all_dataframes =>
             d <- random_uniform (min_delay a) (max_delay a) ;;
             sleep d ;;
             df_pack <- fetch_questions_from_pack pack_id ;;
             match df_pack with
             | Some ((_ :: _) as df_pack) => ret (all_dataframes ++ [df_pack])%list
             | _ => ret all_dataframes
             end)
          [] ;;
      match all_dataframes with
      | [] => ret None
      | _ => ret (Some (List.concat all_dataframes))
      end
  end.

End Fetchers.

End ScraperGq.

(* ================================================================== *)
(** * src/scraper_db.py *)
(* ================================================================== *)

Module ScraperDb.

Local Open Scope string_scope.
Local Open Scope Z_scope.
Local Open Scope py_scope.

Definition BASE_URL : string := "http://www.db.chgk.info".

(** The command line ([--output] names the file whose state [main] is
    given). *)
Record args : Type := Args {
  limit : option Z;
  delay : Q;
  workers : Z
}.

(** What [response.json()] gives: the decoded object, or [None] here when it
    raises [JSONDecodeError]. *)
Definition body : Type := option dict.

(** [fetch_data(session, url, delay)]. *)
Definition fetch_data (url : string) (delay : Q) : M body (option dict) :=
  try_catch
    (sleep delay ;;
     response <- session_get url ;;
     match response with
     | Some data => ret (Some data)
     | None => raise JSONDecodeError
     end)
    [ ([OnlyClass RequestException], fun _ => ret None);
      ([OnlyClass JSONDecodeError], fun _ => ret None) ].

(** A cell of the column [package_played_at].  A new record holds what the
    API gave ([Raw]: a [str], or [None]); [pd.to_datetime] turns the cells of
    the table read from the file into [Timestamp]s, [NaT] where the value does
    not parse. *)
Inductive cell : Type :=
| Raw (v : json)
| Timestamp (t : Z)
| NaT.

(** A flattened question: the dictionary [flat_record], one row of the
    output table. *)
Record flat_record : Type := Flat {
  package_id : json;
  package_title : json;
  package_played_at : cell;
  package_editors : json;
  package_info : json;
  tour_id : json;
  tour_title : json;
  tour_number : json;
  question_id : json;
  question_number : json;
  question_type : json;
  question_text : json;
  answer : json;
  pass_criteria : json;
  authors : json;
  sources : json;
  comments : json
}.

(** A data frame of questions is the list of its rows, in index order. *)
Definition table : Type := list flat_record.

(** The output file before the run. *)
Inductive file_state : Type :=
| Absent                        (* [output_file.exists()] is false *)
| Unreadable                    (* [pd.read_parquet] raises *)
| Stored (df : table).          (* what [pd.read_parquet] gives, the cells as stored *)

(** What [main] does to the output file. *)
Inductive run : Type :=
| OutOfFuel                     (* the listing loop did not end within the fuel *)
| NoWrite                       (* [main] returned before [to_parquet] *)
| Write (df : table).           (* [df_final.to_parquet(args.output)] *)

(** [df[column] = value] on one row. *)
Definition set_played_at (r : flat_record) (c : cell) : flat_record :=
  Flat (package_id r) (package_title r) c (package_editors r) (package_info r)
       (tour_id r) (tour_title r) (tour_number r)
       (question_id r) (question_number r) (question_type r) (question_text r)
       (answer r) (pass_criteria r) (authors r) (sources r) (comments r).

(** [pd.isna] of a cell. *)
Definition isna (c : cell) : bool :=
  match c with
  | Raw JNull | NaT => true
  | _ => false
  end.

(** [DataFrame.take(indexer)]: the rows at the positions [indexer], in that
    order. *)
Fixpoint take (df : table) (indexer : list nat) : result table :=
  match indexer with
  | [] => Ok []
  | i :: rest =>
      match nth_error df i with
      | Some r => rows <~ take df rest ;; Ok (r :: rows)
      | None => Raise IndexError
      end
  end.

Section Pipeline.

(** Library calls the script passes values through: [repr] (inside
    f-strings), [json.dumps(., ensure_ascii=False)], [pd.to_datetime(.,
    errors="coerce")] on one value ([None] is [NaT]) and
    [Timestamp.isoformat()] ([isoformat None] is that of [NaT]). *)
Variable repr : json -> string.
Variable json_dumps : json -> string.
Variable to_datetime : json -> option Z.
Variable isoformat : option Z -> string.

(** The order in which [as_completed] hands back the futures. *)
Variable as_completed : forall A : Type, list A -> list A.

(** The sort inside [DataFrame.sort_values(by=..., ascending=False)]:
    [argsort column] is pandas' [nargsort(column, kind="quicksort",
    ascending=False, na_position="last")], the positions of the cells in
    their new order.  It compares the cells as they are, with Python's [<];
    it raises [TypeError] when two of them cannot be compared, as a
    [Timestamp] and a [str]; what it does with equal cells is its own
    affair (quicksort is not stable). *)
Variable argsort : list cell -> result (list nat).

(** One turn of the loop over [questions_data["hydra:member"]]. *)
Definition flatten (tour_id : json) (tour_info package_info question_info : json)
    : result flat_record :=
  p_id <~ get package_info "id" JNull ;;
  p_title <~ get package_info "title" JNull ;;
  p_played <~ get package_info "playedAt" JNull ;;
  p_editors <~ get package_info "editors" JNull ;;
  p_info <~ get package_info "info" JNull ;;
  t_title <~ get tour_info "title" JNull ;;
  t_number <~ get tour_info "number" JNull ;;
  q_id <~ get question_info "id" JNull ;;
  q_number <~ get question_info "number" JNull ;;
  q_type <~ get question_info "type" JNull ;;
  q_text <~ get question_info "question" JNull ;;
  q_answer <~ get question_info "answer" JNull ;;
  q_pass <~ get question_info "passCriteria" JNull ;;
  q_authors <~ get question_info "authors" JNull ;;
  q_sources <~ get question_info "sources" JNull ;;
  q_comments <~ get question_info "comments" JNull ;;
  Ok (Flat p_id p_title (Raw p_played) (JStr (json_dumps p_editors)) p_info
           tour_id t_title t_number
           q_id q_number q_type q_text q_answer q_pass
           (JStr (json_dumps q_authors)) (JStr (json_dumps q_sources))
           q_comments).

Fixpoint flatten_all (tour_id tour_info package_info : json)
    (members : list json) : result (list flat_record) :=
  match members with
  | [] => Ok []
  | question_info :: rest =>
      flat_record <~ flatten tour_id tour_info package_info question_info ;;
      more <~ flatten_all tour_id tour_info package_info rest ;;
      Ok (flat_record :: more)
  end.

(** [process_tour(tour_info, package_info, session, args)]. *)
Definition process_tour (tour_info package_info : json) (a : args)
    : M body (list flat_record) :=
  tour_id <- lift (get tour_info "id" JNull) ;;
  if negb (truthy tour_id) then ret []
  else
    let questions_url :=
      BASE_URL ++ "/tours/" ++ str repr tour_id ++ "/questions" in
    questions_data <- fetch_data questions_url (delay a) ;;
    match questions_data with
    | Some data =>
        if truthy (JObj data) && dict_has data "hydra:member"
        then
          lift (member <~ getitem_str (JObj data) "hydra:member" ;;
                members <~ iter member ;;
                flatten_all tour_id tour_info package_info members)
        else ret []
    | None => ret []
    end.

(** [process_package(package_info, session, args)]. *)
Definition process_package (package_info : json) (a : args)
    : M body (list flat_record) :=
  package_id <- lift (get package_info "id" JNull) ;;
  if negb (truthy package_id) then ret []
  else
    let tours_url :=
      BASE_URL ++ "/packages/" ++ str repr package_id ++ "/tours" in
    tours_data <- fetch_data tours_url (delay a) ;;
    package_questions <-
      match tours_data with
      | Some data =>
          if truthy (JObj data) && dict_has data "hydra:member"
          then
            member <- lift (getitem_str (JObj data) "hydra:member") ;;
            tours <- lift (iter member) ;;
            for_each tours
              (fun tour_info package_questions =>
                 qs <- process_tour tour_info package_info a ;;
                 ret (package_questions ++ qs)%list)
              []
          else ret []
      | None => ret []
      end ;;
    ret package_questions.

(** ** Resuming: the cursor read from the existing file *)

(** [pd.to_datetime(column, errors="coerce")] on one cell. *)
Definition to_datetime_cell (c : cell) : cell :=
  match c with
  | Raw v =>
      match to_datetime v with
      | Some t => Timestamp t
      | None => NaT
      end
  | Timestamp t => Timestamp t
  | NaT => NaT
  end.

(** [df["package_played_at"] = pd.to_datetime(df["package_played_at"],
    errors="coerce")]. *)
Definition to_datetime_column (df : table) : table :=
  map (fun r => set_played_at r (to_datetime_cell (package_played_at r))) df.

(** [df.dropna(subset=["package_played_at"])]. *)
Definition dropna (df : table) : table :=
  filter (fun r => negb (isna (package_played_at r))) df.

(** The time of a cell of a converted column. *)
Definition played_at (r : flat_record) : option Z :=
  match package_played_at r with
  | Timestamp t => Some t
  | _ => None
  end.

(** [Series.max()] of the converted column: [NaT] on an empty column. *)
Definition max_played_at (df : table) : option Z :=
  fold_left
    (fun best r =>
       match best, played_at r with
       | Some b, Some t => Some (Z.max b t)
       | None, t => t
       | b, None => b
       end)
    df None.

(** The first part of [main]: [(df_existing, last_played_at)].  The stored
    table has the columns this script writes, so the test on
    ["package_played_at" in df_existing.columns] holds. *)
Definition load_existing (file : file_state) : table * option string :=
  match file with
  | Stored df_existing =>
      match df_existing with
      | [] => (df_existing, None)
      | _ =>
          let df_existing := to_datetime_column df_existing in
          let df_existing := dropna df_existing in
          (df_existing, Some (isoformat (max_played_at df_existing)))
      end
  | Absent | Unreadable => ([], None)
  end.

(** [if last_played_at]: neither [None] nor the empty string. *)
Definition is_set (last_played_at : option string) : bool :=
  match last_played_at with
  | Some s => negb (String.eqb s "")
  | None => false
  end.

(** ** Phase 1: the listing loop *)

Definition played_at_filter (last_played_at : option string) : string :=
  match last_played_at with
  | Some s => if is_set last_played_at then "&playedAt[before]=" ++ s else ""
  | None => ""
  end.

Definition packages_url (current_page : Z) (last_played_at : option string)
    : string :=
  BASE_URL ++ "/packages?page=" ++ str_int current_page
    ++ "&order[playedAt]=desc" ++ played_at_filter last_played_at.

Definition limit_reached (a : args) (packages_to_process : list json) : bool :=
  match limit a with
  | Some l => l <=? len packages_to_process
  | None => false
  end.

(** The [while True] loop; [None] when [fuel] turns do not end it. *)
Fixpoint collect_packages (fuel : nat) (a : args)
    (last_played_at : option string) (current_page : Z)
    (packages_to_process : list json) : M body (option (list json)) :=
  match fuel with
  | O => ret None
  | S fuel =>
      if limit_reached a packages_to_process
      then ret (Some packages_to_process)
      else
        packages_data <-
          fetch_data (packages_url current_page last_played_at) (delay a) ;;
        match packages_data with
        | None => ret (Some packages_to_process)
        | Some data =>
            if negb (truthy (JObj data))
               || negb (dict_has data "hydra:member")
               || negb (truthy (dict_get data "hydra:member" JNull))
            then ret (Some packages_to_process)
            else
              members <- lift (iter (dict_get data "hydra:member" JNull)) ;;
              collect_packages fuel a last_played_at (current_page + 1)
                               (packages_to_process ++ members)%list
        end
  end.

(** ** Phase 2: one task per package *)

(** A finished future: the package it was submitted for and what
    [future.result()] gives.  The pool is modelled by running the tasks one
    after the other in submission order; [as_completed] then decides the
    order in which their results are read. *)
Definition future : Type := (json * result (list flat_record))%type.

Definition submit (pkg : json) (a : args) : M body future :=
  fun w => let (r, w') := process_package pkg a w in (Ok (pkg, r), w').

Definition detail_phase (packages_to_process : list json) (a : args)
    : M body (list flat_record) :=
  future_to_package <-
    for_each packages_to_process
      (fun pkg futures => f <- submit pkg a ;; ret (futures ++ [f])%list)
      [] ;;
  for_each (as_completed _ future_to_package)
    (fun (f : future) all_questions_data =>
       match snd f with
       | Ok questions =>
           match questions with
           | [] => ret all_questions_data
           | _ => ret (all_questions_data ++ questions)%list
           end
       | Raise _ =>
           _ <- lift (get (fst f) "title" (JStr "N/A")) ;;
           ret all_questions_data
       end)
    [].

(** ** Merge and persist *)

Definition same_question (r r' : flat_record) : bool :=
  json_eqb (question_id r) (question_id r').

(** [df.drop_duplicates(subset=["question_id"], keep="last")]: a row goes
    when a later row has its question id. *)
Fixpoint drop_duplicates (df : table) : table :=
  match df with
  | [] => []
  | r :: rest =>
      if existsb (same_question r) rest
      then drop_duplicates rest
      else r :: drop_duplicates rest
  end.

(** [df.sort_values(by="package_played_at", ascending=False)]: the rows taken
    at the positions the sort of the column gives. *)
Definition sort_values (df : table) : result table :=
  indexer <~ argsort (map package_played_at df) ;;
  take df indexer.

(** The end of [main], from [df_new = pd.DataFrame(all_questions_data)] to
    the frame handed to [to_parquet]. *)
Definition merge (df_existing : table) (last_played_at : option string)
    (df_new : table) : result table :=
  let df_final :=
    if is_set last_played_at then (df_existing ++ df_new)%list else df_new in
  sort_values (drop_duplicates df_final).

(** The part of [main] after the [with] block. *)
Definition persist (df_existing : table) (last_played_at : option string)
    (all_questions_data : list flat_record) : result run :=
  match all_questions_data with
  | [] => Ok NoWrite
  | _ =>
      df_final <~ merge df_existing last_played_at all_questions_data ;;
      Ok (Write df_final)
  end.

(** [main()].  [ThreadPoolExecutor(max_workers=args.workers)] raises
    [ValueError] unless [args.workers] is positive. *)
Definition main (fuel : nat) (a : args) (file : file_state) : M body run :=
  let (df_existing, last_played_at) := load_existing file in
  if workers a <=? 0 then raise ValueError
  else
    packages_to_process <- collect_packages fuel a last_played_at 1 [] ;;
    match packages_to_process with
    | None => ret OutOfFuel
    | Some [] => ret NoWrite
    | Some packages_to_process =>
        all_questions_data <- detail_phase packages_to_process a ;;
        lift (persist df_existing last_played_at all_questions_data)
    end.

End Pipeline.

End ScraperDb.

(* ================================================================== *)
(** * src/to_json_for_label_studio.py *)
(* ================================================================== *)

Module LabelStudio.

Local Open Scope N_scope.

(** A Python string as the list of its code points: [strip] looks at
    characters, not at bytes, and the labels are Cyrillic. *)
Definition text : Type := list N.

(** The characters [str.strip()] removes: those for which [str.isspace]
    holds. *)
Definition isspace (c : N) : bool :=
  ((9 <=? c) && (c <=? 13)) || ((28 <=? c) && (c <=? 32))
  || (c =? 133) || (c =? 160) || (c =? 5760)
  || ((8192 <=? c) && (c <=? 8202))
  || (c =? 8232) || (c =? 8233) || (c =? 8239) || (c =? 8287) || (c =? 12288).

Fixpoint lstrip (s : text) : text :=
  match s with
  | [] => []
  | c :: rest => if isspace c then lstrip rest else s
  end.

Definition rstrip (s : text) : text := rev (lstrip (rev s)).

(** [s.strip()]. *)
Definition strip (s : text) : text := rstrip (lstrip s).

(** The columns the script reads, which hold strings; [None] is a null
    cell. *)
Record row : Type := Row {
  r_text : option text;
  r_answer : option text;
  r_comment : option text
}.

(** [column.fillna("")] on one cell. *)
Definition fillna (cell : option text) : text :=
  match cell with
  | Some s => s
  | None => []
  end.

(** The two labels, with the line feeds around them. *)
Definition answer_label : text :=
  [10; 10; 1054; 1058; 1042; 1045; 1058; 58; 10].
Definition comment_label : text :=
  [10; 10; 1050; 1054; 1052; 1052; 1045; 1053; 1058; 1040; 1056; 1048; 1049;
   58; 10].

(** [full_text] of one turn of the loop over the rows. *)
Definition full_text (r : row) : text :=
  let question_part := fillna (r_text r) in
  let answer := fillna (r_answer r) in
  let comment := fillna (r_comment r) in
  let answer_part :=
    match answer with [] => [] | _ => answer_label ++ answer end in
  let comment_part :=
    match comment with [] => [] | _ => comment_label ++ comment end in
  question_part ++ answer_part ++ comment_part.

(** The text of the task of a row: [full_text.strip()]. *)
Definition task_text (r : row) : text := strip (full_text r).

(** The list handed to [json.dump]: one task per row, after
    [random.shuffle], whose outcome is the parameter [shuffle]. *)
Definition tasks (shuffle : list text -> list text) (df : list row)
    : list text :=
  shuffle (map task_text df).

End LabelStudio.

(* ================================================================== *)
(** * Test doubles *)
(* ================================================================== *)

Module Doubles.

Local Open Scope string_scope.
Local Open Scope Z_scope.

Definition q : string := String ScraperGq.quote "".

(** A page is taken to be the text of its only script. *)
Definition BeautifulSoup (text : string) : list string := [text].


Fixpoint unescape (s : list ascii) : result (list ascii) :=
  match s with
  | [] => Ok []
  | c :: rest =>
      if Ascii.eqb c ScraperGq.backslash
      then match rest with
           | c' :: rest' =>
               if Ascii.eqb c' ScraperGq.quote || Ascii.eqb c' ScraperGq.backslash
               then rbind (unescape rest') (fun r => Ok (c' :: r))
               else Raise SyntaxError
           | [] => Raise SyntaxError
           end
      else if Ascii.eqb c ScraperGq.quote then Raise SyntaxError
      else rbind (unescape rest) (fun r => Ok (c :: r))
  end.

(** [ast.literal_eval] on a quoted string: the text between the quotes,
    unescaped. *)
Definition literal_eval (s : string) : result string :=
  let inner := String.substring 1 (String.length s - 2) s in
  rbind (unescape (list_ascii_of_string inner))
        (fun r => Ok (string_of_list_ascii r)).

(** The blob of a listing page with the packs 7 and 8, as JSON text and
    decoded. *)
Definition packs_text : string :=
  "[0,0,0,{" ++ q ++ "children" ++ q ++ ":[0,0,0,{" ++ q ++ "packs" ++ q
    ++ ":[{" ++ q ++ "id" ++ q ++ ":7},{" ++ q ++ "id" ++ q ++ ":8}]}]}]".

Definition packs_value : json :=
  JArr [JNum 0; JNum 0; JNum 0;
        JObj [("children",
               JArr [JNum 0; JNum 0; JNum 0;
                     JObj [("packs", JArr [JObj [("id", JNum 7)];
                                           JObj [("id", JNum 8)]])]])]].

(** [json.loads] on the documents the scenarios use. *)
Definition documents : list (string * json) :=
  [ ("[0,0,0,null]", JArr [JNum 0; JNum 0; JNum 0; JNull]);
    ("[0,0,0]", JArr [JNum 0; JNum 0; JNum 0]);
    ("[0,0,0,{}]", JArr [JNum 0; JNum 0; JNum 0; JObj []]);
    (packs_text, packs_value) ].

Definition json_loads (s : string) : result json :=
  match lookup s documents with
  | Some v => Ok v
  | None => Raise JSONDecodeError
  end.

Definition repr (v : json) : string := "?".

(** The script a listing page carries around the blob [blob]. *)
Definition page (blob : string) : string :=
  "self.__next_f.push([1," ++ q ++ "5:" ++ blob ++ "\n" ++ q ++ "])".

(** Every draw of [random.uniform(a, b)] is [a]. *)
Definition lower (n : nat) (a b : Q) : Q := a.

(** The Cyrillic letter ya, U+044F: two bytes in UTF-8. *)
Definition ya : string :=
  String (ascii_of_nat 209) (String (ascii_of_nat 143) EmptyString).

(** ** For src/scraper_db.py *)

Definition json_dumps (v : json) : string := "null".

(** [pd.to_datetime] and [isoformat] on the three dates of the scenarios,
    as days. *)
Definition calendar : list (string * Z) :=
  [ ("2019-01-01T00:00:00", 17897);
    ("2020-01-01T00:00:00", 18262);
    ("2021-01-01T00:00:00", 18628) ].

Fixpoint day_of (s : string) (c : list (string * Z)) : option Z :=
  match c with
  | [] => None
  | (s', d) :: c' => if String.eqb s s' then Some d else day_of s c'
  end.

Fixpoint date_of (d : Z) (c : list (string * Z)) : string :=
  match c with
  | [] => "NaT"
  | (s, d') :: c' => if d =? d' then s else date_of d c'
  end.

Definition to_datetime (v : json) : option Z :=
  match v with
  | JStr s => day_of s calendar
  | _ => None
  end.

Definition isoformat (t : option Z) : string :=
  match t with
  | Some d => date_of d calendar
  | None => "NaT"
  end.

(** The futures complete in the order they were submitted. *)
Definition as_completed (A : Type) (futures : list A) : list A := futures.

(** The sort of a column of [Timestamp]s and nulls, or of strings and nulls:
    descending, strings compared character by character, null cells last in
    the order they had, equal cells in the order they had.  A column that
    holds anything else next to them is refused with [TypeError]. *)
Definition geb (a b : ScraperDb.cell) : bool :=
  match a, b with
  | ScraperDb.Timestamp x, ScraperDb.Timestamp y => y <=? x
  | ScraperDb.Raw (JStr x), ScraperDb.Raw (JStr y) => String.leb y x
  | _, _ => true
  end.

Fixpoint insert (x : nat * ScraperDb.cell) (sorted : list (nat * ScraperDb.cell))
    : list (nat * ScraperDb.cell) :=
  match sorted with
  | [] => [x]
  | s :: rest =>
      if geb (snd x) (snd s) then x :: sorted else s :: insert x rest
  end.

Definition is_timestamp (c : ScraperDb.cell) : bool :=
  match c with
  | ScraperDb.Timestamp _ => true
  | _ => false
  end.

Definition is_str (c : ScraperDb.cell) : bool :=
  match c with
  | ScraperDb.Raw (JStr _) => true
  | _ => false
  end.

Definition argsort (column : list ScraperDb.cell) : result (list nat) :=
  let indexed := combine (seq 0 (List.length column)) column in
  let present := filter (fun p => negb (ScraperDb.isna (snd p))) indexed in
  let missing := filter (fun p => ScraperDb.isna (snd p)) indexed in
  if forallb (fun p => is_timestamp (snd p)) present
     || forallb (fun p => is_str (snd p)) present
  then Ok (map fst (fold_right insert [] present ++ missing))
  else Raise TypeError.

(** A site that answers each URL of [routes] with its document and fails
    every other request. *)
Definition served (routes : list (string * dict))
    : nat -> string -> outcome ScraperDb.body :=
  fun _ url =>
    match find (fun r => String.eqb url (fst r)) routes with
    | Some r => Response (Some (snd r))
    | None => RequestFailed
    end.

Definition listing (members : list json) : dict :=
  [("hydra:member", JArr members)].

(** The value of the query parameter that [marker] introduces, when it is the
    last one of [url]. *)
Definition after_marker (marker url : string) : option string :=
  match String.index 0 marker url with
  | Some i =>
      Some (String.substring (i + String.length marker) (String.length url) url)
  | None => None
  end.

Definition played (pkg : json) : option Z :=
  match get pkg "playedAt" JNull with
  | Ok v => to_datetime v
  | Raise _ => None
  end.

(** A listing source that holds [packages] and honours the date filters of
    the query: [playedAt[before]=T] keeps the packages played at or before
    [T], [playedAt[after]=T] those played at or after [T].  Everything fits
    on page 1. *)
Definition listing_api (packages : list json)
    : nat -> string -> outcome ScraperDb.body :=
  fun _ url =>
    let keep (pkg : json) : bool :=
      match after_marker "&playedAt[before]=" url with
      | Some bound =>
          match played pkg, to_datetime (JStr bound) with
          | Some t, Some b => t <=? b
          | _, _ => false
          end
      | None => true
      end
      &&
      match after_marker "&playedAt[after]=" url with
      | Some bound =>
          match played pkg, to_datetime (JStr bound) with
          | Some t, Some b => b <=? t
          | _, _ => false
          end
      | None => true
      end in
    if String.prefix (ScraperDb.BASE_URL ++ "/packages?page=1&") url
    then Response (Some (listing (filter keep packages)))
    else if String.prefix (ScraperDb.BASE_URL ++ "/packages?page=") url
    then Response (Some (listing []))
    else RequestFailed.

Definition package (id : Z) (playedAt : string) : json :=
  JObj [("id", JNum id); ("title", JStr "pack"); ("playedAt", JStr playedAt)].

Definition pkg2019 : json := package 1 "2019-01-01T00:00:00".
Definition pkg2021 : json := package 2 "2021-01-01T00:00:00".

(** A stored row: question [id] of a package played at [playedAt]. *)
Definition row (id : json) (playedAt : json) (text : string)
    : ScraperDb.flat_record :=
  ScraperDb.Flat (JNum 7) (JStr "pack") (ScraperDb.Raw playedAt) (JStr "null") JNull
                 (JNum 70) (JStr "tour") (JNum 1)
                 id (JNum 1) (JNum 1) (JStr text) (JStr "a") JNull
                 (JStr "null") (JStr "null") JNull.

Definition unlimited : ScraperDb.args := ScraperDb.Args None (1 # 5) 5.
Definition limited (l : Z) : ScraperDb.args := ScraperDb.Args (Some l) (1 # 5) 5.

(** A site with one package of one tour, whose questions are [questions]. *)
Definition small_site (questions : list json) : list (string * dict) :=
  [ (ScraperDb.packages_url 1 None, listing [pkg2021]);
    (ScraperDb.packages_url 2 None, listing []);
    (ScraperDb.BASE_URL ++ "/packages/2/tours",
     listing [JObj [("id", JNum 20); ("title", JStr "tour"); ("number", JNum 1)]]);
    (ScraperDb.BASE_URL ++ "/tours/20/questions", listing questions) ].

(** A site whose listing has the pages [pages], then an empty one. *)
Fixpoint listing_pages (n : Z) (pages : list (list json))
    : list (string * dict) :=
  match pages with
  | [] => [(ScraperDb.packages_url n None, listing [])]
  | members :: rest =>
      (ScraperDb.packages_url n None, listing members)
        :: listing_pages (n + 1) rest
  end.

(** A site with the package 3, whose tours request is answered with a number
    where the list of tours should be, and the package 2 of [small_site]. *)
Definition pkg3 : json := package 3 "2021-01-01T00:00:00".

Definition broken_site (questions : list json) : list (string * dict) :=
  (ScraperDb.BASE_URL ++ "/packages/3/tours", [("hydra:member", JNum 5)])
    :: small_site questions.

(** What a run resumed at [cursor] finds: the package of 2019 with its tour
    10 and the question 5 of that tour. *)
Definition older_site (cursor : option string) : list (string * dict) :=
  [ (ScraperDb.packages_url 1 cursor, listing [pkg2019]);
    (ScraperDb.packages_url 2 cursor, listing []);
    (ScraperDb.BASE_URL ++ "/packages/1/tours",
     listing [JObj [("id", JNum 10); ("title", JStr "tour"); ("number", JNum 1)]]);
    (ScraperDb.BASE_URL ++ "/tours/10/questions",
     listing [JObj [("id", JNum 5); ("question", JStr "new")]]) ].


End Doubles.

(* ================================================================== *)
(** * Facts about requests and sleeps *)
(* ================================================================== *)

Module NetFacts.

Lemma session_get_coming {B} (w : world B) (url : string) :
  session_get url w =
  (match coming w 0 url with
   | ConnectionFailed => Raise ConnectionError
   | RequestFailed => Raise RequestException
   | Response body => Ok body
   end, after w [url] []).
Proof.
  unfold session_get, coming, after. rewrite Nat.add_0_r, app_nil_r.
  destruct (net w _ url); reflexivity.
Qed.

Lemma coming_after {B} (w : world B) urls zs k url :
  coming (after w urls zs) k url = coming w (List.length urls + k) url.
Proof.
  unfold coming, after. simpl. rewrite length_app. f_equal. lia.
Qed.

Lemma after_after {B} (w : world B) us zs us' zs' :
  after (after w us zs) us' zs' = after w (us ++ us') (zs ++ zs').
Proof. unfold after. simpl. now rewrite <- !app_assoc. Qed.

Lemma after_nil {B} (w : world B) : after w [] [] = w.
Proof. destruct w. unfold after. simpl. now rewrite !app_nil_r. Qed.

(** [time.sleep] by the sign of its argument. *)
Lemma sleep_ok {B} (seconds : Q) (w : world B) :
  Qle_bool 0 seconds = true ->
  sleep seconds w = (Ok tt, after w [] [seconds]).
Proof.
  intros H. unfold sleep, after. rewrite H. now rewrite app_nil_r.
Qed.

Lemma sleep_negative {B} (seconds : Q) (w : world B) :
  Qle_bool 0 seconds = false ->
  sleep seconds w = (Raise ValueError, w).
Proof. intros H. unfold sleep. now rewrite H. Qed.

(** The delays of the retry loop are positive. *)
Lemma backoff_nonneg (attempt : Z) :
  Qle_bool 0 (inject_Z (2 ^ (attempt + 1))) = true.
Proof.
  apply Qle_bool_iff. unfold Qle. simpl. rewrite Z.mul_1_r.
  apply Z.pow_nonneg. lia.
Qed.

End NetFacts.

(* ================================================================== *)
(** * Facts about src/scraper_gq.py *)
(* ================================================================== *)

Module GqFacts.

Import ScraperGq NetFacts.
Local Open Scope string_scope.
Local Open Scope Z_scope.

Lemma list_getitem_in_range {A} (lst : list A) (index : Z) :
  - len lst <= index < len lst ->
  exists x, list_getitem lst index = Ok x
    /\ nth_error lst (Z.to_nat (index mod len lst)) = Some x.
Proof.
  unfold list_getitem, len. intros Hr.
  set (n := Z.of_nat (List.length lst)) in *.
  assert (Hi : (if index <? 0 then index + n else index) = index mod n).
  { destruct (Z.ltb_spec index 0).
    - apply Z.mod_unique with (q := -1); lia.
    - symmetry. apply Z.mod_small. lia. }
  rewrite Hi.
  assert (Hm : 0 <= index mod n < n) by (apply Z.mod_pos_bound; lia).
  replace ((0 <=? index mod n) && (index mod n <? n))%bool with true
    by (symmetry; apply andb_true_iff; split;
        [apply Z.leb_le | apply Z.ltb_lt]; lia).
  destruct (nth_error lst (Z.to_nat (index mod n))) eqn:E.
  - eauto.
  - apply nth_error_None in E. lia.
Qed.

Lemma safe_get_out_of_range (items : list json) (index : Z) (default : json) :
  ~ (- len items <= index < len items) ->
  safe_get (JArr items) index default = Ok default.
Proof.
  intros Hr. unfold safe_get. simpl.
  destruct (Z.leb_spec (- len items) index), (Z.ltb_spec index (len items));
    simpl; trivial; lia.
Qed.

Lemma safe_get_in_range (items : list json) (index : Z) (default : json) :
  - len items <= index < len items ->
  safe_get (JArr items) index default = list_getitem items index.
Proof.
  intros Hr. unfold safe_get. simpl.
  destruct (Z.leb_spec (- len items) index), (Z.ltb_spec index (len items));
    simpl; trivial; lia.
Qed.

(** C10. On a list [lst], [safe_get] never raises; for an index in
    [-len(lst), len(lst))] it returns the element [lst[index]] (Python
    indexing: a negative index counts from the end), for every other index,
    and so for every index on the empty list, it returns the default. *)
Theorem safe_get_total (lst : list json) (index : Z) (default : json) :
  (exists v, safe_get (JArr lst) index default = Ok v)
  /\ (- len lst <= index < len lst ->
      exists x, list_getitem lst index = Ok x
        /\ nth_error lst (Z.to_nat (index mod len lst)) = Some x
        /\ safe_get (JArr lst) index default = Ok x)
  /\ (~ (- len lst <= index < len lst) ->
      safe_get (JArr lst) index default = Ok default)
  /\ safe_get (JArr []) index default = Ok default.
Proof.
  assert (Hin : - len lst <= index < len lst ->
      exists x, list_getitem lst index = Ok x
        /\ nth_error lst (Z.to_nat (index mod len lst)) = Some x
        /\ safe_get (JArr lst) index default = Ok x).
  { intros Hr. destruct (list_getitem_in_range lst index Hr) as (x & Hx & Hn).
    exists x. repeat split; trivial.
    now rewrite safe_get_in_range. }
  split; [| split; [exact Hin | split]].
  - destruct (Z.leb_spec (- len lst) index), (Z.ltb_spec index (len lst)).
    + destruct Hin as (x & _ & _ & Hx); [lia | eauto].
    + exists default. apply safe_get_out_of_range. lia.
    + exists default. apply safe_get_out_of_range. lia.
    + exists default. apply safe_get_out_of_range. lia.
  - apply safe_get_out_of_range.
  - apply safe_get_out_of_range. unfold len. simpl. lia.
Qed.

(** ** The retry loop *)

(** One turn of the loop, by what its request meets. *)
Lemma request_loop_break url attempt rest (w : world string) text :
  coming w 0 url = Response text ->
  request_loop url (attempt :: rest) w = (Ok (Break text), after w [url] []).
Proof.
  intros H. simpl. unfold bind, try_catch.
  rewrite session_get_coming, H. reflexivity.
Qed.

Lemma request_loop_retry url attempt rest (w : world string) :
  coming w 0 url = ConnectionFailed ->
  attempt < RETRIES - 1 ->
  request_loop url (attempt :: rest) w
  = request_loop url rest (after w [url] [inject_Z (2 ^ (attempt + 1))]).
Proof.
  intros H Ha. simpl. unfold bind at 1. unfold try_catch at 1.
  unfold bind at 1. rewrite session_get_coming, H. simpl.
  unfold RETRIES in Ha.
  destruct (Z.ltb_spec attempt 2); [| lia].
  unfold bind. rewrite sleep_ok by apply backoff_nonneg.
  now rewrite after_after.
Qed.

Lemma request_loop_give_up url attempt rest (w : world string) :
  coming w 0 url = ConnectionFailed ->
  ~ attempt < RETRIES - 1 ->
  request_loop url (attempt :: rest) w = (Ok ReturnNone, after w [url] []).
Proof.
  intros H Ha. simpl. unfold bind at 1. unfold try_catch at 1.
  unfold bind at 1. rewrite session_get_coming, H. simpl.
  unfold RETRIES in Ha.
  destruct (Z.ltb_spec attempt 2); [lia | reflexivity].
Qed.

Lemma request_loop_other url attempt rest (w : world string) :
  coming w 0 url = RequestFailed ->
  request_loop url (attempt :: rest) w = (Ok ReturnNone, after w [url] []).
Proof.
  intros H. simpl. unfold bind, try_catch.
  rewrite session_get_coming, H. reflexivity.
Qed.

(** The loop on a first attempt that succeeds. *)
Lemma retry_first (url : string) (w : world string) (text : string) :
  coming w 0 url = Response text ->
  request_with_retries url w = (Ok (Break text), after w [url] []).
Proof. intros H0. now apply request_loop_break. Qed.

(** One connection error, then a response: one sleep of 2 seconds. *)
Lemma retry_second (url : string) (w : world string) (text : string) :
  coming w 0 url = ConnectionFailed ->
  coming w 1 url = Response text ->
  request_with_retries url w
  = (Ok (Break text), after w [url; url] [inject_Z 2]).
Proof.
  intros H0 H1. unfold request_with_retries. change (range RETRIES) with [0; 1; 2].
  rewrite request_loop_retry by (trivial; reflexivity).
  erewrite request_loop_break by (rewrite coming_after; exact H1).
  now rewrite after_after.
Qed.



(** ** The fetchers around the loop *)

Section Fetchers.

Variable BeautifulSoup : string -> list string.
Variable literal_eval : string -> result string.
Variable json_loads : string -> result json.
Variable repr : json -> string.

Definition page_url (page_num : Z) : string :=
  URL_BASE ++ "/?page=" ++ str_int page_num.

Definition pack_url (pack_id : json) : string :=
  URL_BASE ++ "/pack/" ++ str repr pack_id.

Lemma fetch_ids_after_loop page_num (w w' : world string) exit :
  request_with_retries (page_url page_num) w = (Ok exit, w') ->
  fetch_tournament_ids_from_page BeautifulSoup literal_eval json_loads
                                 page_num w
  = (match exit with
     | ReturnNone => Ok None
     | _ => parse_tournament_ids BeautifulSoup literal_eval json_loads exit
     end, w').
Proof.
  intros H. unfold fetch_tournament_ids_from_page, bind.
  fold (page_url page_num). rewrite H. now destruct exit.
Qed.

Lemma fetch_questions_after_loop pack_id (w w' : world string) exit :
  request_with_retries (pack_url pack_id) w = (Ok exit, w') ->
  fetch_questions_from_pack BeautifulSoup literal_eval json_loads repr
                            pack_id w
  = (match exit with
     | ReturnNone => Ok None
     | _ => parse_questions BeautifulSoup literal_eval json_loads exit
     end, w').
Proof.
  intros H. unfold fetch_questions_from_pack, bind.
  fold (pack_url pack_id). rewrite H. now destruct exit.
Qed.


(** A lookup that fails with [KeyError] or [IndexError] on the way to the
    packs is caught: neither exception leaves the parsing of a page. *)
Lemma parse_tournament_ids_raises (exit : loop_exit) (e : exn) :
  parse_tournament_ids BeautifulSoup literal_eval json_loads exit = Raise e ->
  e <> KeyError /\ e <> IndexError.
Proof.
  unfold parse_tournament_ids, try_except.
  destruct (rbind (response_text exit) _) as [v | e']; [discriminate |].
  simpl. destruct e'; simpl; intros H; inversion H; split; discriminate.
Qed.

End Fetchers.

(** C9. A page whose blob decodes to [[0, 0, 0, null]] has no
    [[3]["children"]] to follow: the subscript raises [TypeError], which
    neither fetcher catches, and [main], asked for three pages, stops with
    that exception after the first request.  A blob that is too short,
    [[0, 0, 0]], raises [IndexError] and is skipped. *)
Theorem schema_drift_type_error_aborts :
  let fetch_ids :=
    fetch_tournament_ids_from_page Doubles.BeautifulSoup Doubles.literal_eval
                                   Doubles.json_loads in
  let fetch_questions :=
    fetch_questions_from_pack Doubles.BeautifulSoup Doubles.literal_eval
                              Doubles.json_loads Doubles.repr in
  let run :=
    main Doubles.BeautifulSoup Doubles.literal_eval Doubles.json_loads
         Doubles.repr (Args 3 (3 # 2) 4) in
  let drifted : world string :=
    fresh (fun _ _ => Response (Doubles.page "[0,0,0,null]")) Doubles.lower in
  let short : world string :=
    fresh (fun _ _ => Response (Doubles.page "[0,0,0]")) Doubles.lower in
  extract_json_from_script Doubles.literal_eval Doubles.json_loads
    (Doubles.BeautifulSoup (Doubles.page "[0,0,0,null]"))
  = Ok (Some (JArr [JNum 0; JNum 0; JNum 0; JNull]))
  /\ fst (fetch_ids 1 drifted) = Raise TypeError
  /\ fst (fetch_questions (JNum 1) drifted) = Raise TypeError
  /\ fst (run drifted) = Raise TypeError
  /\ requested (snd (run drifted)) = [page_url 1]
  /\ fst (fetch_ids 1 short) = Ok None
  /\ requested (snd (run short)) = [page_url 1; page_url 2; page_url 3].
Proof. repeat split. Qed.

End GqFacts.

(* ================================================================== *)
(** * Facts about src/scraper_db.py *)
(* ================================================================== *)

Module DbFacts.

Import ScraperDb NetFacts GqFacts.
Local Open Scope Z_scope.

(** ** Equality of question ids *)

Lemma json_eqb_eq (a b : json) : json_eqb a b = true <-> a = b.
Proof.
  revert b. induction a as [| x | x | x | xs IH | xs IH] using json_induction;
    intros [| y | y | y | ys | ys]; simpl;
    try (split; [discriminate | discriminate]); try tauto.
  - rewrite Bool.eqb_true_iff. split; congruence.
  - rewrite Z.eqb_eq. split; congruence.
  - rewrite String.eqb_eq. split; congruence.
  - revert ys. induction IH as [| x xs Hx _ IHxs]; intros [| y ys];
      try (split; [discriminate | discriminate]); try tauto.
    rewrite andb_true_iff, Hx, IHxs. split.
    + intros [-> E]. now inversion E.
    + intros E. inversion E. tauto.
  - revert ys. induction IH as [| [k x] xs Hx _ IHxs]; intros [| [k' y] ys];
      try (split; [discriminate | discriminate]); try tauto.
    simpl in Hx.
    rewrite !andb_true_iff, String.eqb_eq, Hx, IHxs. split.
    + intros [[-> ->] E]. now inversion E.
    + intros E. inversion E. tauto.
Qed.

Lemma same_question_iff (r r' : flat_record) :
  same_question r r' = true <-> question_id r = question_id r'.
Proof. apply json_eqb_eq. Qed.

Lemma has_question_iff (r : flat_record) (df : table) :
  existsb (same_question r) df = true
  <-> In (question_id r) (map question_id df).
Proof.
  rewrite existsb_exists, in_map_iff. split.
  - intros (r' & Hin & H). apply same_question_iff in H. eauto.
  - intros (r' & H & Hin). exists r'. split; trivial.
    now apply same_question_iff.
Qed.

Lemma has_question_false (r : flat_record) (df : table) :
  existsb (same_question r) df = false
  <-> ~ In (question_id r) (map question_id df).
Proof.
  rewrite <- has_question_iff. destruct (existsb _ df); split; congruence.
Qed.

(** ** [drop_duplicates] *)

(** The rows of [df] whose question id does not occur in [later]. *)
Definition not_in (later : table) (df : table) : table :=
  filter (fun r => negb (existsb (same_question r) later)) df.

Lemma drop_duplicates_incl (df : table) (r : flat_record) :
  In r (drop_duplicates df) -> In r df.
Proof.
  induction df as [| x df IH]; simpl; trivial.
  destruct (existsb (same_question x) df); simpl; intuition.
Qed.

Lemma drop_duplicates_NoDup (df : table) :
  NoDup (map question_id (drop_duplicates df)).
Proof.
  induction df as [| x df IH]; simpl; [constructor |].
  destruct (existsb (same_question x) df) eqn:E; trivial.
  simpl. constructor; trivial.
  apply has_question_false in E. intros Hin. apply E.
  apply in_map_iff in Hin as (r & Hr & Hin). apply in_map_iff.
  exists r. split; trivial. now apply drop_duplicates_incl.
Qed.

Lemma drop_duplicates_fixed (df : table) :
  NoDup (map question_id df) -> drop_duplicates df = df.
Proof.
  induction df as [| x df IH]; simpl; trivial. intros H.
  inversion H as [| ? ? Hx Hdf]; subst.
  apply has_question_false in Hx. rewrite Hx. f_equal. auto.
Qed.

Lemma drop_duplicates_app (a b : table) :
  drop_duplicates (a ++ b) = not_in b (drop_duplicates a) ++ drop_duplicates b.
Proof.
  unfold not_in. induction a as [| x a IH]; simpl; trivial.
  rewrite existsb_app.
  destruct (existsb (same_question x) a) eqn:Ea; simpl; trivial.
  destruct (existsb (same_question x) b) eqn:Eb; simpl; trivial.
  now rewrite IH.
Qed.

(** A row survives exactly when it is the last one with its question id. *)
Lemma drop_duplicates_last (df : table) (r : flat_record) :
  In r (drop_duplicates df)
  <-> exists before after,
        df = before ++ r :: after
        /\ ~ In (question_id r) (map question_id after).
Proof.
  induction df as [| x df IH]; simpl.
  - split; [tauto |]. intros ([| ? ?] & after & H & _); discriminate.
  - destruct (existsb (same_question x) df) eqn:E.
    + rewrite IH. split.
      * intros (b & a & -> & H). exists (x :: b), a. auto.
      * intros ([| y b] & a & H & Hn); inversion H; subst.
        -- apply has_question_iff in E. contradiction.
        -- eauto.
    + simpl. rewrite IH. split.
      * intros [-> | (b & a & -> & H)].
        -- exists [], df. split; trivial. now apply has_question_false.
        -- exists (x :: b), a. auto.
      * intros ([| y b] & a & H & Hn); inversion H; subst; eauto.
Qed.

Lemma drop_duplicates_covers (df : table) (r : flat_record) :
  In r df ->
  exists r', In r' (drop_duplicates df) /\ question_id r' = question_id r.
Proof.
  revert r. induction df as [| x df IH]; simpl; [tauto |].
  intros r [-> | Hin].
  - destruct (existsb (same_question r) df) eqn:E.
    + apply has_question_iff, in_map_iff in E as (r' & Hid & Hr').
      destruct (IH _ Hr') as (r'' & ? & ?). exists r''. split; congruence.
    + exists r. simpl. auto.
  - destruct (IH _ Hin) as (r' & ? & ?). exists r'. split; trivial.
    destruct (existsb (same_question x) df); simpl; auto.
Qed.

(** ** [take] *)

Lemma take_incl (df : table) (indexer : list nat) (out : table) :
  take df indexer = Ok out -> incl out df.
Proof.
  revert out. induction indexer as [| i rest IH]; intros out H; simpl in H.
  - inversion H. intros r [].
  - destruct (nth_error df i) as [r |] eqn:Ei; [| discriminate].
    destruct (take df rest) as [rows | e] eqn:Er; [| discriminate].
    simpl in H. inversion H; subst. intros x [<- | Hx].
    + eapply nth_error_In; eauto.
    + now apply (IH rows).
Qed.

(** Taking the same positions in another order gives the same rows in that
    order. *)
Lemma take_perm (df : table) (indexer indexer' : list nat) :
  Permutation indexer indexer' ->
  forall out, take df indexer = Ok out ->
  exists out', take df indexer' = Ok out' /\ Permutation out out'.
Proof.
  induction 1 as [| i l l' _ IH | i j l | l l' l'' _ IH1 _ IH2]; intros out H.
  - exists out. split; [exact H | apply Permutation_refl].
  - simpl in H. destruct (nth_error df i) as [r |] eqn:Ei; [| discriminate].
    destruct (take df l) as [rows | e] eqn:El; [| discriminate].
    simpl in H. inversion H; subst.
    destruct (IH rows eq_refl) as (rows' & E & Hp).
    exists (r :: rows'). simpl. rewrite Ei, E. split; [reflexivity |].
    now constructor.
  - simpl in H.
    destruct (nth_error df j) as [rj |] eqn:Ej; [| discriminate].
    destruct (nth_error df i) as [ri |] eqn:Ei; [| discriminate].
    destruct (take df l) as [rows | e] eqn:El; [| discriminate].
    simpl in H. inversion H; subst.
    exists (ri :: rj :: rows). simpl. rewrite Ei, Ej, El. split; [reflexivity |].
    apply perm_swap.
  - destruct (IH1 out H) as (out' & E' & Hp').
    destruct (IH2 out' E') as (out'' & E'' & Hp'').
    exists out''. split; [exact E'' |]. now transitivity out'.
Qed.

Lemma take_all (df : table) :
  forall pre : table,
    take (pre ++ df) (seq (List.length pre) (List.length df)) = Ok df.
Proof.
  induction df as [| x df IH]; intros pre; simpl; trivial.
  rewrite nth_error_app2, Nat.sub_diag by lia. simpl.
  replace (pre ++ x :: df) with ((pre ++ [x]) ++ df)
    by (rewrite <- app_assoc; reflexivity).
  replace (S (List.length pre)) with (List.length (pre ++ [x]))
    by (rewrite length_app; simpl; lia).
  now rewrite IH.
Qed.

(** ** [sort_values] *)

(** What the facts below take from pandas' sort.  It returns every position
    of the column once: *)
Definition rearranges (argsort : list cell -> result (list nat)) : Prop :=
  forall column indexer,
    argsort column = Ok indexer ->
    Permutation indexer (seq 0 (List.length column)).

(** and it raises [TypeError] on a column that holds a [Timestamp] and a
    [str], which Python cannot compare. *)
Definition refuses_mixed (argsort : list cell -> result (list nat)) : Prop :=
  forall column t s,
    In (Timestamp t) column -> In (Raw (JStr s)) column ->
    argsort column = Raise TypeError.

Section Merge.

Variable to_datetime : json -> option Z.
Variable isoformat : option Z -> string.
Variable argsort : list cell -> result (list nat).

Local Abbreviation sort := (sort_values argsort).

Lemma sort_values_incl (df out : table) : sort df = Ok out -> incl out df.
Proof.
  unfold sort_values. destruct (argsort _) as [indexer | e]; [| discriminate].
  apply take_incl.
Qed.

Lemma sort_values_perm (df out : table) :
  rearranges argsort -> sort df = Ok out -> Permutation out df.
Proof.
  intros Hperm. unfold sort_values.
  destruct (argsort _) as [indexer | e] eqn:Ea; [| discriminate].
  simpl. intros Ht. apply Hperm in Ea. rewrite length_map in Ea.
  destruct (take_perm df _ _ Ea out Ht) as (out' & E & Hp).
  pose proof (take_all df []) as Hall. simpl in Hall.
  rewrite Hall in E. inversion E; subst. exact Hp.
Qed.

Lemma sort_values_mixed (df : table) (p n : flat_record) (t : Z) (s : string) :
  refuses_mixed argsort ->
  In p df -> package_played_at p = Timestamp t ->
  In n df -> package_played_at n = Raw (JStr s) ->
  sort df = Raise TypeError.
Proof.
  intros Hmixed Hp Ht Hn Hs. unfold sort_values.
  rewrite (Hmixed _ t s); trivial.
  - rewrite <- Ht. now apply in_map.
  - rewrite <- Hs. now apply in_map.
Qed.

(** ** The merge *)

(** The frame the merge works on: the prior table is in front when the
    cursor is set. *)
Definition df_final (df_existing : table) (last_played_at : option string)
    (df_new : table) : table :=
  if is_set last_played_at then df_existing ++ df_new else df_new.

Lemma merge_unfold df_existing last_played_at df_new :
  merge argsort df_existing last_played_at df_new
  = sort (drop_duplicates (df_final df_existing last_played_at df_new)).
Proof. reflexivity. Qed.

(** The prior table as the merge sees it. *)
Definition prior_of (df_existing : table) (last_played_at : option string)
    : table :=
  if is_set last_played_at then df_existing else [].

Lemma df_final_prior df_existing last_played_at df_new :
  df_final df_existing last_played_at df_new
  = prior_of df_existing last_played_at ++ df_new.
Proof. unfold df_final, prior_of. now destruct (is_set last_played_at). Qed.

Lemma not_in_self (df : table) : not_in df (drop_duplicates df) = [].
Proof.
  unfold not_in.
  assert (H : forall l, incl l df ->
            filter (fun r => negb (existsb (same_question r) df)) l = []).
  { induction l as [| x l IH]; simpl; trivial. intros Hl.
    assert (Hx : existsb (same_question x) df = true).
    { apply has_question_iff, in_map. apply Hl. now left. }
    rewrite Hx. simpl. apply IH. intros y Hy. apply Hl. now right. }
  apply H. intros r. apply drop_duplicates_incl.
Qed.

Lemma not_in_nil (later df : table) :
  (forall r, In r df -> In (question_id r) (map question_id later)) ->
  not_in later df = [].
Proof.
  intros H. unfold not_in. induction df as [| x df IH]; simpl; trivial.
  assert (Hx : existsb (same_question x) later = true)
    by (apply has_question_iff, H; now left).
  rewrite Hx. simpl. apply IH. intros r Hr. apply H. now right.
Qed.

Lemma merge_incl df_existing last_played_at df_new out r :
  merge argsort df_existing last_played_at df_new = Ok out ->
  In r out ->
  In r (drop_duplicates (df_final df_existing last_played_at df_new)).
Proof. rewrite merge_unfold. intros H. now apply sort_values_incl. Qed.

Lemma merge_perm df_existing last_played_at df_new out :
  rearranges argsort ->
  merge argsort df_existing last_played_at df_new = Ok out ->
  Permutation out
    (drop_duplicates (df_final df_existing last_played_at df_new)).
Proof. rewrite merge_unfold. apply sort_values_perm. Qed.

(** ** What [main] holds after reading the file *)

Lemma question_id_set_played_at (r : flat_record) (c : cell) :
  question_id (set_played_at r c) = question_id r.
Proof. reflexivity. Qed.

Lemma set_played_at_same (r : flat_record) :
  set_played_at r (package_played_at r) = r.
Proof. now destruct r. Qed.

(** The rows of the table [main] keeps from a stored one: each is a stored
    row with its played-at cell converted to a [Timestamp]. *)
Lemma load_existing_rows (file : file_state) (r : flat_record) :
  In r (fst (load_existing to_datetime isoformat file)) ->
  exists df stored t,
    file = Stored df /\ In stored df
    /\ to_datetime_cell to_datetime (package_played_at stored) = Timestamp t
    /\ r = set_played_at stored (Timestamp t).
Proof.
  destruct file as [| | [| x df]]; try (simpl; tauto).
  unfold load_existing. cbn [fst].
  unfold dropna, to_datetime_column. rewrite filter_In, in_map_iff.
  intros [(stored & <- & Hin) Hna]. simpl in Hna.
  destruct (to_datetime_cell to_datetime (package_played_at stored))
    as [v | t |] eqn:E.
  - destruct (package_played_at stored) as [v' | t' |]; simpl in E;
      try discriminate.
    destruct (to_datetime v'); discriminate.
  - exists (x :: df), stored, t. auto.
  - discriminate.
Qed.

Lemma load_existing_timestamps (file : file_state) (r : flat_record) :
  In r (fst (load_existing to_datetime isoformat file)) ->
  exists t, package_played_at r = Timestamp t.
Proof.
  intros H. apply load_existing_rows in H as (df & stored & t & _ & _ & _ & ->).
  now exists t.
Qed.

(** A cursor read from a file with rows is set, as long as [isoformat] gives
    no empty string. *)
Lemma load_existing_set (x : flat_record) (df : table) :
  (forall t, isoformat t <> ""%string) ->
  is_set (snd (load_existing to_datetime isoformat (Stored (x :: df)))) = true.
Proof.
  intros Hiso. simpl. set (t := max_played_at _). specialize (Hiso t).
  apply String.eqb_neq in Hiso. now rewrite Hiso.
Qed.

(** C2. In a resumed run the merge does not return a table.  The rows kept
    from the file hold [Timestamp]s (line 141), the new records hold the
    strings of the API; when, after [drop_duplicates], a prior row is left
    next to a new record with a string date, [sort_values] (line 231) raises
    [TypeError], and nothing is written. *)
Theorem resumed_merge_raises
    (file : file_state) (all_questions_data : list flat_record)
    (p n : flat_record) (s : string)
    (Hmixed : refuses_mixed argsort)
    (Hset : is_set (snd (load_existing to_datetime isoformat file)) = true)
    (Hp : In p (drop_duplicates (fst (load_existing to_datetime isoformat file))))
    (Hkeep : ~ In (question_id p) (map question_id all_questions_data))
    (Hn : In n (drop_duplicates all_questions_data))
    (Hs : package_played_at n = Raw (JStr s)) :
  persist argsort (fst (load_existing to_datetime isoformat file))
          (snd (load_existing to_datetime isoformat file)) all_questions_data
  = Raise TypeError.
Proof.
  destruct (load_existing_timestamps file p) as (t & Ht);
    [now apply drop_duplicates_incl |].
  destruct all_questions_data as [| x new]; [destruct Hn |].
  set (N := x :: new) in *. unfold persist, N. fold N.
  unfold merge. rewrite Hset, drop_duplicates_app.
  rewrite (sort_values_mixed _ p n t s); trivial.
  - apply in_or_app. left. unfold not_in. apply filter_In. split; trivial.
    apply has_question_false in Hkeep. now rewrite Hkeep.
  - apply in_or_app. now right.
Qed.

(** X25. Whenever the merge of [main] returns a table (the cursor is set,
    or there is no prior table), that table has no two rows with one
    question id, has a row for every question id of the prior table and of
    the new records, and its rows are exactly the rows that come last with
    their question id in the concatenation prior table, then new records. *)
Theorem returned_merge_keeps_last
    (df_existing : table) (last_played_at : option string) (df_new out : table)
    (Hperm : rearranges argsort)
    (Hprior : is_set last_played_at = true \/ df_existing = [])
    (Hout : merge argsort df_existing last_played_at df_new = Ok out) :
  NoDup (map question_id out)
  /\ (forall r, In r (df_existing ++ df_new) ->
       exists r', In r' out /\ question_id r' = question_id r)
  /\ (forall r,
       In r out
       <-> exists before after,
             df_existing ++ df_new = before ++ r :: after
             /\ ~ In (question_id r) (map question_id after)).
Proof.
  assert (Hf : df_final df_existing last_played_at df_new
               = df_existing ++ df_new).
  { unfold df_final. destruct Hprior as [-> | ->]; trivial.
    now destruct (is_set last_played_at). }
  pose proof (merge_perm _ _ _ _ Hperm Hout) as Hp. rewrite Hf in Hp.
  split; [| split].
  - eapply Permutation_NoDup;
      [apply Permutation_map, Permutation_sym, Hp | apply drop_duplicates_NoDup].
  - intros r Hr.
    destruct (drop_duplicates_covers _ _ Hr) as (r' & Hin & Hid).
    exists r'. split; trivial.
    now apply (Permutation_in _ (Permutation_sym Hp)).
  - intros r. rewrite <- drop_duplicates_last. split; apply Permutation_in;
      [| apply Permutation_sym]; exact Hp.
Qed.

(** C6. The question id of a flattened record is the [id] field of the
    question object, [None] when the field is missing; the merge adds no
    row of its own, so the written frame has no null question id when
    neither the prior table nor the new records have one. *)
Theorem persisted_question_ids :
  (forall json_dumps tour_id tour_info package_info question record,
     flatten json_dumps tour_id tour_info package_info (JObj question)
     = Ok record ->
     question_id record = dict_get question "id" JNull)
  /\ (forall df_existing last_played_at all_questions_data df,
       persist argsort df_existing last_played_at all_questions_data
       = Ok (Write df) ->
       (forall r, In r (df_existing ++ all_questions_data) ->
                  question_id r <> JNull) ->
       forall r, In r df -> question_id r <> JNull).
Proof.
  split.
  - intros jd tid tour pkg q r. unfold flatten.
    destruct pkg; simpl; try discriminate.
    destruct tour; simpl; try discriminate.
    intros H. now inversion H.
  - intros df_existing last new df Hp Hall r Hr.
    destruct new as [| x new]; [discriminate |].
    unfold persist in Hp.
    destruct (merge argsort df_existing last (x :: new)) as [out | e] eqn:Em;
      [| discriminate].
    simpl in Hp. inversion Hp; subst df. clear Hp.
    apply (merge_incl _ _ _ _ _ Em), drop_duplicates_incl in Hr.
    apply Hall. unfold df_final in Hr.
    destruct (is_set last); trivial. apply in_or_app. now right.
Qed.

(** ** Two runs in a row *)

(** X22. A run that starts without a prior table and writes a table, and a
    second run that finds this table and fetches the same records: the
    second run writes the same table, row for row.  Every row read from the
    file is replaced by its new record, so the sort sees the frame of the
    first run again. *)
Theorem second_run_writes_same_table
    (all_questions_data : list flat_record) (df : table)
    (Hiso : forall t, isoformat t <> ""%string)
    (Hfirst : persist argsort [] None all_questions_data = Ok (Write df)) :
  persist argsort (fst (load_existing to_datetime isoformat (Stored df)))
          (snd (load_existing to_datetime isoformat (Stored df)))
          all_questions_data
  = Ok (Write df).
Proof.
  destruct df as [| y df']; [exact Hfirst |].
  pose proof (load_existing_set y df' Hiso) as Hset.
  set (R := y :: df') in *.
  destruct all_questions_data as [| x new]; [discriminate |].
  set (N := x :: new) in *. unfold persist, N in Hfirst |- *. fold N in Hfirst |- *.
  destruct (merge argsort [] None N) as [out | e] eqn:Em; [| discriminate].
  simpl in Hfirst. inversion Hfirst; subst out. clear Hfirst.
  unfold merge in Em |- *. simpl is_set in Em. cbv iota in Em.
  rewrite Hset.
  rewrite drop_duplicates_app, not_in_nil, app_nil_l, Em; [reflexivity |].
  intros r Hr. apply drop_duplicates_incl in Hr.
  apply load_existing_rows in Hr as (df0 & stored & t & E & Hin & _ & ->).
  inversion E; subst df0. rewrite question_id_set_played_at.
  apply in_map. apply (sort_values_incl _ _ Em) in Hin.
  now apply drop_duplicates_incl in Hin.
Qed.

Lemma filter_perm {A} (f : A -> bool) (l l' : list A) :
  Permutation l l' -> Permutation (filter f l) (filter f l').
Proof.
  induction 1 as [| x l l' _ IH | x y l | l l' l'' _ IH1 _ IH2]; simpl.
  - constructor.
  - destruct (f x); [now constructor | exact IH].
  - destruct (f y), (f x); try apply perm_swap; apply Permutation_refl.
  - now transitivity (filter f l').
Qed.

Lemma NoDup_ids_filter (keep : flat_record -> bool) (df : table) :
  NoDup (map question_id df) -> NoDup (map question_id (filter keep df)).
Proof.
  induction df as [| x df IH]; simpl; trivial. intros H.
  inversion H as [| ? ? Hx Hdf]; subst.
  destruct (keep x); simpl; auto. constructor; auto.
  intros Hin. apply Hx. apply in_map_iff in Hin as (r & Hr & Hin).
  apply in_map_iff. exists r. split; trivial. now apply filter_In in Hin.
Qed.

Lemma question_ids_converted (df : table) :
  map question_id (to_datetime_column to_datetime df) = map question_id df.
Proof. unfold to_datetime_column. rewrite map_map. now apply map_ext. Qed.

(** Rows that hold [Timestamp]s pass the conversion and [dropna] as they
    are. *)
Lemma timestamps_kept (df : table) :
  (forall r, In r df -> exists t, package_played_at r = Timestamp t) ->
  dropna (to_datetime_column to_datetime df) = df.
Proof.
  induction df as [| x df IH]; intros H; trivial.
  unfold dropna, to_datetime_column in *. simpl.
  destruct (H x (or_introl eq_refl)) as (t & Ht).
  rewrite Ht. simpl. rewrite <- Ht, set_played_at_same. f_equal.
  apply IH. intros r Hr. apply H. now right.
Qed.

Lemma not_in_fixed (later df : table) :
  not_in later (not_in later df) = not_in later df.
Proof.
  unfold not_in. induction df as [| x df IH]; simpl; trivial.
  destruct (existsb (same_question x) later) eqn:E; simpl; trivial.
  now rewrite E, IH.
Qed.

(** X23. When the merge returns a table, and returns one again for the run
    that finds this table in the file and fetches the same records, the
    second table has exactly the rows of the first: no row is lost and none
    is doubled.  The order of the rows is left to the sort. *)
Theorem merge_again_same_rows
    (file : file_state) (all_questions_data : list flat_record)
    (df df' : table)
    (Hperm : rearranges argsort)
    (Hiso : forall t, isoformat t <> ""%string)
    (Hfirst :
       persist argsort (fst (load_existing to_datetime isoformat file))
               (snd (load_existing to_datetime isoformat file))
               all_questions_data
       = Ok (Write df))
    (Hsecond :
       persist argsort (fst (load_existing to_datetime isoformat (Stored df)))
               (snd (load_existing to_datetime isoformat (Stored df)))
               all_questions_data
       = Ok (Write df')) :
  Permutation df' df
  /\ NoDup (map question_id df')
  /\ List.length df' = List.length df.
Proof.
  destruct all_questions_data as [| x new]; [discriminate |].
  set (N := x :: new) in *.
  unfold persist, N in Hfirst, Hsecond. fold N in Hfirst, Hsecond.
  destruct (merge argsort _ _ N) as [out | e] eqn:E1 in Hfirst;
    [| discriminate].
  simpl in Hfirst. inversion Hfirst; subst out. clear Hfirst.
  destruct (merge argsort _ _ N) as [out | e] eqn:E2 in Hsecond;
    [| discriminate].
  simpl in Hsecond. inversion Hsecond; subst out. clear Hsecond.
  apply (merge_perm _ _ _ _ Hperm) in E1, E2.
  rewrite df_final_prior, drop_duplicates_app in E1, E2.
  set (A := not_in N (drop_duplicates
                        (prior_of (fst (load_existing to_datetime isoformat file))
                                  (snd (load_existing to_datetime isoformat file)))))
    in *.
  set (D := drop_duplicates N) in *.
  assert (HA : forall r, In r A -> exists t, package_played_at r = Timestamp t).
  { intros r Hr. unfold A, not_in in Hr. apply filter_In in Hr as [Hr _].
    apply drop_duplicates_incl in Hr. unfold prior_of in Hr.
    destruct (is_set _); [| destruct Hr].
    now apply load_existing_timestamps in Hr. }
  assert (HD : forall r, In r D -> In (question_id r) (map question_id N)).
  { intros r Hr. apply in_map. now apply drop_duplicates_incl. }
  assert (Hids : NoDup (map question_id df)).
  { eapply Permutation_NoDup;
      [apply Permutation_map, Permutation_sym, E1 |].
    unfold A, D. rewrite <- drop_duplicates_app. apply drop_duplicates_NoDup. }
  destruct df as [| y df0].
  { apply Permutation_nil in E1.
    destruct (drop_duplicates_covers N x (or_introl eq_refl)) as (r & Hr & _).
    fold D in Hr. destruct A; [| discriminate]. simpl in E1.
    rewrite E1 in Hr. destruct Hr. }
  set (R := y :: df0) in *.
  assert (Hprior :
    prior_of (fst (load_existing to_datetime isoformat (Stored R)))
             (snd (load_existing to_datetime isoformat (Stored R)))
    = dropna (to_datetime_column to_datetime R)).
  { unfold prior_of. unfold R at 1. now rewrite load_existing_set. }
  rewrite Hprior in E2. clear Hprior.
  set (P2 := dropna (to_datetime_column to_datetime R)) in *.
  assert (HP2 : Permutation P2 (A ++ dropna (to_datetime_column to_datetime D))).
  { unfold P2, dropna.
    rewrite (filter_perm _ _ _
               (Permutation_map _ E1 : Permutation
                  (to_datetime_column to_datetime R)
                  (to_datetime_column to_datetime (A ++ D)))).
    unfold to_datetime_column. rewrite map_app, filter_app.
    apply Permutation_app_tail.
    fold (to_datetime_column to_datetime A).
    fold (dropna (to_datetime_column to_datetime A)).
    now rewrite timestamps_kept. }
  assert (Hkeep : Permutation (not_in N (drop_duplicates P2)) A).
  { rewrite drop_duplicates_fixed.
    - unfold not_in at 1. rewrite (filter_perm _ _ _ HP2), filter_app.
      fold (not_in N A). fold (not_in N (dropna (to_datetime_column to_datetime D))).
      unfold A at 1. rewrite not_in_fixed. fold A.
      rewrite not_in_nil; [now rewrite app_nil_r |].
      intros r Hr. unfold dropna in Hr. apply filter_In in Hr as [Hr _].
      unfold to_datetime_column in Hr.
      apply in_map_iff in Hr as (r0 & <- & Hr0).
      rewrite question_id_set_played_at. now apply HD.
    - unfold P2, dropna. apply NoDup_ids_filter.
      now rewrite question_ids_converted. }
  assert (Hp : Permutation df' R).
  { rewrite E2, Hkeep. now symmetry. }
  split; [exact Hp | split].
  - eapply Permutation_NoDup;
      [apply Permutation_map, Permutation_sym, Hp | exact Hids].
  - now apply Permutation_length.
Qed.

End Merge.

(** ** The sort of the scenarios *)

Lemma insert_perm (x : nat * cell) (sorted : list (nat * cell)) :
  Permutation (Doubles.insert x sorted) (x :: sorted).
Proof.
  induction sorted as [| s sorted IH]; simpl; trivial.
  destruct (Doubles.geb (snd x) (snd s)); trivial.
  rewrite IH. apply perm_swap.
Qed.

Lemma insertion_perm (l : list (nat * cell)) :
  Permutation (fold_right Doubles.insert [] l) l.
Proof.
  induction l as [| x l IH]; simpl; trivial.
  rewrite insert_perm. now constructor.
Qed.

Lemma filter_split {A} (f : A -> bool) (l : list A) :
  Permutation (filter (fun x => negb (f x)) l ++ filter f l) l.
Proof.
  induction l as [| x l IH]; simpl; trivial.
  destruct (f x); simpl.
  - rewrite <- Permutation_middle. now constructor.
  - now constructor.
Qed.

Lemma map_fst_indexed {A} (l : list A) :
  forall k, map fst (combine (seq k (List.length l)) l) = seq k (List.length l).
Proof.
  induction l as [| x l IH]; intros k; simpl; trivial. now rewrite IH.
Qed.

Lemma in_indexed {A} (l : list A) (x : A) :
  In x l -> forall k, exists i, In (i, x) (combine (seq k (List.length l)) l).
Proof.
  induction l as [| y l IH]; intros Hin k; [destruct Hin |].
  destruct Hin as [-> | Hin].
  - exists k. now left.
  - destruct (IH Hin (S k)) as (i & Hi). exists i. now right.
Qed.

(** The sort of the scenarios does what is taken from pandas' sort. *)
Lemma argsort_rearranges : rearranges Doubles.argsort.
Proof.
  intros column indexer. unfold Doubles.argsort.
  destruct (_ || _)%bool; [| discriminate].
  intros H. inversion H. subst indexer. clear H.
  set (indexed := combine (seq 0 (List.length column)) column).
  transitivity (map fst indexed);
    [| unfold indexed; now rewrite map_fst_indexed].
  apply Permutation_map.
  rewrite insertion_perm. apply (filter_split (fun p => isna (snd p))).
Qed.

Lemma argsort_refuses_mixed : refuses_mixed Doubles.argsort.
Proof.
  intros column t s Ht Hs. unfold Doubles.argsort.
  destruct (in_indexed column _ Ht 0%nat) as (i & Hi).
  destruct (in_indexed column _ Hs 0%nat) as (j & Hj).
  set (present := filter _ (combine _ column)).
  assert (Hpi : In (i, Timestamp t) present)
    by (apply filter_In; split; [exact Hi | reflexivity]).
  assert (Hpj : In (j, Raw (JStr s)) present)
    by (apply filter_In; split; [exact Hj | reflexivity]).
  destruct (forallb (fun p => Doubles.is_timestamp (snd p)) present) eqn:E1.
  - rewrite forallb_forall in E1. specialize (E1 _ Hpj). discriminate.
  - destruct (forallb (fun p => Doubles.is_str (snd p)) present) eqn:E2;
      [| reflexivity].
    rewrite forallb_forall in E2. specialize (E2 _ Hpi). discriminate.
Qed.
(** ** [fetch_data] *)

(** What [fetch_data] returns for what its one request meets. *)
Definition payload (o : outcome body) : option dict :=
  match o with
  | Response (Some data) => Some data
  | _ => None
  end.

Lemma fetch_data_once (url : string) (delay : Q) (w : world body) :
  Qle_bool 0 delay = true ->
  fetch_data url delay w
  = (Ok (payload (coming w 0 url)), after w [url] [delay]).
Proof.
  intros Hdelay. unfold fetch_data, try_catch, bind.
  rewrite sleep_ok by exact Hdelay.
  assert (H1 : @coming (option dict) (@after (option dict) w [] [delay]) 0 url
               = @coming body w 0 url)
    by apply (coming_after w [] [delay] 0 url).
  rewrite session_get_coming, H1, after_after. simpl app.
  destruct (coming w 0 url) as [| | [data |]]; reflexivity.
Qed.

(** A negative delay: [time.sleep] raises [ValueError], which neither
    [except] clause of [fetch_data] catches; nothing is requested. *)
Lemma fetch_data_negative (url : string) (delay : Q) (w : world body) :
  Qle_bool 0 delay = false ->
  fetch_data url delay w = (Raise ValueError, w).
Proof.
  intros Hdelay. unfold fetch_data, try_catch, bind.
  now rewrite sleep_negative by exact Hdelay.
Qed.

(** ** The listing loop *)


(** The URLs of [n] successive listing pages from [page] on. *)
Definition page_urls (page : Z) (cursor : option string) (n : nat)
    : list string :=
  map (fun i => packages_url (page + Z.of_nat i) cursor) (seq 0 n).


Lemma page_urls_S page cursor n :
  page_urls page cursor (S n)
  = packages_url page cursor :: page_urls (page + 1) cursor n.
Proof.
  unfold page_urls. simpl. rewrite Z.add_0_r. f_equal.
  rewrite <- seq_shift, map_map. apply map_ext. intros i.
  f_equal. lia.
Qed.


(** X21. Whatever the source answers, the listing loop requests successive
    listing pages from [page] on, each with the same cursor, and nothing
    else. *)
Lemma collect_packages_requests (fuel : nat) :
  forall (a : args) (cursor : option string) (page : Z) (acc : list json)
         (w : world body),
  exists k,
    requested (snd (collect_packages fuel a cursor page acc w))
    = requested w ++ page_urls page cursor k.
Proof.
  assert (Hone : forall page cursor,
            page_urls page cursor 1 = [packages_url page cursor]).
  { intros. unfold page_urls. simpl. now rewrite Z.add_0_r. }
  induction fuel as [| fuel IH]; intros a cursor page acc w.
  - exists 0%nat. simpl. now rewrite app_nil_r.
  - cbn [collect_packages].
    destruct (limit_reached a acc).
    { exists 0%nat. simpl. now rewrite app_nil_r. }
    unfold bind at 1.
    destruct (Qle_bool 0 (delay a)) eqn:Hdelay.
    2: { rewrite fetch_data_negative by exact Hdelay.
         exists 0%nat. simpl. now rewrite app_nil_r. }
    rewrite fetch_data_once by exact Hdelay.
    destruct (payload (coming w 0 (packages_url page cursor))) as [data |].
    2: { exists 1%nat. now rewrite Hone. }
    destruct (negb (truthy (JObj data)) || negb (dict_has data "hydra:member")
              || negb (truthy (dict_get data "hydra:member" JNull))).
    { exists 1%nat. now rewrite Hone. }
    unfold bind, lift.
    destruct (iter (dict_get data "hydra:member" JNull)) as [members | e].
    + destruct (IH a cursor (page + 1) (acc ++ members)
                   (after w [packages_url page cursor] [delay a])) as (k & Hk).
      exists (S k). rewrite Hk, page_urls_S. simpl. now rewrite <- app_assoc.
    + exists 1%nat. now rewrite Hone.
Qed.




(** C7. With [--limit 1] and a first listing page of two packages, both
    packages are collected for the detail phase: the limit is only looked at
    between pages, and nothing cuts the list down to it. *)
Theorem limit_overshoots_by_page :
  let w := fresh (Doubles.served
                    (Doubles.listing_pages 1 [[Doubles.pkg2021; Doubles.pkg2019]]))
                 Doubles.lower in
  fst (collect_packages 5 (Doubles.limited 1) None 1 [] w)
  = Ok (Some [Doubles.pkg2021; Doubles.pkg2019])
  /\ limit (Doubles.limited 1) = Some 1
  /\ len [Doubles.pkg2021; Doubles.pkg2019] = 2.
Proof. repeat split. Qed.

(** Every listing request of a resumed run carries the cursor as the
    [playedAt[before]] parameter. *)
Lemma packages_url_resumed (page : Z) (cursor : string) :
  cursor <> ""%string ->
  packages_url page (Some cursor)
  = (BASE_URL ++ "/packages?page=" ++ str_int page
     ++ "&order[playedAt]=desc" ++ "&playedAt[before]=" ++ cursor)%string.
Proof.
  intros H. unfold packages_url, played_at_filter, is_set.
  apply String.eqb_neq in H. now rewrite H.
Qed.

(** C1. Resuming from a table whose latest played-at is 2020-01-01, against
    a listing source that holds a package of 2019 and one of 2021 and
    honours the date filter of the request: the request asks for
    [playedAt[before]=2020-01-01T00:00:00], the package of 2019 is scheduled
    for the detail phase and the package of 2021 is not. *)
Theorem resume_requests_older_packages :
  let prior := [Doubles.row (JNum 1) (JStr "2020-01-01T00:00:00") "stored"] in
  let cursor := snd (load_existing Doubles.to_datetime Doubles.isoformat
                                   (Stored prior)) in
  let w := fresh (Doubles.listing_api [Doubles.pkg2021; Doubles.pkg2019])
                 Doubles.lower in
  cursor = Some "2020-01-01T00:00:00"%string
  /\ packages_url 1 cursor
     = ("http://www.db.chgk.info/packages?page=1&order[playedAt]=desc"
        ++ "&playedAt[before]=2020-01-01T00:00:00")%string
  /\ fst (collect_packages 5 Doubles.unlimited cursor 1 [] w)
     = Ok (Some [Doubles.pkg2019])
  /\ requested (snd (collect_packages 5 Doubles.unlimited cursor 1 [] w))
     = [packages_url 1 cursor; packages_url 2 cursor].
Proof. repeat split. Qed.

(** C8. When the listing phase ends with no package, or the detail phase
    with no record, [main] returns without calling [to_parquet]; with a
    [--workers] that is not positive it has raised [ValueError] before the
    listing phase, and has not called it either. *)
Theorem no_new_records_no_write
    (repr json_dumps : json -> string) (to_datetime : json -> option Z)
    (isoformat : option Z -> string)
    (as_completed : forall A : Type, list A -> list A)
    (argsort : list cell -> result (list nat))
    (fuel : nat) (a : args) (file : file_state) (w w1 : world body)
    (packages_to_process : list json)
    (Hlisting :
       collect_packages fuel a
         (snd (load_existing to_datetime isoformat file)) 1 [] w
       = (Ok (Some packages_to_process), w1))
    (Hnone :
       packages_to_process = []
       \/ exists w2,
            detail_phase repr json_dumps as_completed packages_to_process a w1
            = (Ok [], w2)) :
  exists w',
    main repr json_dumps to_datetime isoformat as_completed argsort
         fuel a file w
    = (if 0 <? workers a then Ok NoWrite else Raise ValueError, w').
Proof.
  unfold main. destruct (load_existing to_datetime isoformat file)
    as [df_existing last_played_at].
  rewrite Z.leb_antisym.
  destruct (0 <? workers a); [| eexists; reflexivity].
  simpl in Hlisting. cbn [negb]. unfold bind at 1. rewrite Hlisting.
  destruct Hnone as [-> | (w2 & Hd)]; [eexists; reflexivity |].
  destruct packages_to_process; [eexists; reflexivity |].
  unfold bind. rewrite Hd. eexists. reflexivity.
Qed.

Lemma no_new_records_no_write_witness :
  let w := fresh (Doubles.served (Doubles.small_site [])) Doubles.lower in
  exists w',
    main Doubles.repr Doubles.json_dumps Doubles.to_datetime Doubles.isoformat
         Doubles.as_completed Doubles.argsort 5 Doubles.unlimited Absent w
    = (Ok NoWrite, w').
Proof.
  intros w.
  eapply (no_new_records_no_write Doubles.repr Doubles.json_dumps
            Doubles.to_datetime Doubles.isoformat Doubles.as_completed
            Doubles.argsort 5 Doubles.unlimited Absent w _ [Doubles.pkg2021]).
  - reflexivity.
  - right. eexists. reflexivity.
Defined.




(** ** The merge on a small table *)

Definition stored_1 : flat_record :=
  Doubles.row (JNum 1) (JStr "2020-01-01T00:00:00") "stored".
Definition stored_2 : flat_record :=
  Doubles.row (JNum 2) (JStr "2019-01-01T00:00:00") "kept".
Definition fetched_1 : flat_record :=
  Doubles.row (JNum 1) (JStr "2021-01-01T00:00:00") "first".
Definition fetched_1' : flat_record :=
  Doubles.row (JNum 1) (JStr "2021-01-01T00:00:00") "second".
Definition fetched_2 : flat_record :=
  Doubles.row (JNum 2) (JStr "2019-01-01T00:00:00") "other".
Definition fetched_3 : flat_record :=
  Doubles.row (JNum 3) (JStr "2019-01-01T00:00:00") "first".
Definition fetched_3' : flat_record :=
  Doubles.row (JNum 3) (JStr "2019-01-01T00:00:00") "second".
Definition cursor_2020 : option string := Some "2020-01-01T00:00:00"%string.

(** A first run, without a prior table: the later record of question 1 is
    kept, and the rows are in descending order of their dates. *)
Example merge_small :
  merge Doubles.argsort [] None [fetched_1; fetched_2; fetched_1']
  = Ok [fetched_1'; fetched_2].
Proof. reflexivity. Qed.

(** The rows [main] holds after reading a table of the questions 1 and 2:
    their dates are [Timestamp]s. *)
Example load_existing_small :
  load_existing Doubles.to_datetime Doubles.isoformat
                (Stored [stored_1; stored_2])
  = ([set_played_at stored_1 (Timestamp 18262);
      set_played_at stored_2 (Timestamp 17897)],
     cursor_2020).
Proof. reflexivity. Qed.

(** A stored table with the questions 1 and 2, and two new records of
    question 3, dated by the API: the merge raises [TypeError]. *)
Lemma resumed_merge_raises_witness :
  let file := Stored [stored_1; stored_2] in
  let all_questions_data := [fetched_3; fetched_3'] in
  persist Doubles.argsort
          (fst (load_existing Doubles.to_datetime Doubles.isoformat file))
          (snd (load_existing Doubles.to_datetime Doubles.isoformat file))
          all_questions_data
  = Raise TypeError.
Proof.
  intros file all_questions_data.
  apply (resumed_merge_raises Doubles.to_datetime Doubles.isoformat
           Doubles.argsort file all_questions_data
           (set_played_at stored_2 (Timestamp 17897)) fetched_3'
           "2019-01-01T00:00:00").
  - exact argsort_refuses_mixed.
  - reflexivity.
  - right. left. reflexivity.
  - intros [H | [H | []]]; discriminate.
  - left. reflexivity.
  - reflexivity.
Defined.

(** The record of question 5, of tour 10 of the package of 2019, as
    [process_tour] builds it. *)
Definition fetched_5 : flat_record :=
  Flat (JNum 1) (JStr "pack") (Raw (JStr "2019-01-01T00:00:00")) (JStr "null")
       JNull (JNum 10) (JStr "tour") (JNum 1)
       (JNum 5) JNull JNull (JStr "new") JNull JNull
       (JStr "null") (JStr "null") JNull.

(** C3. The merge cannot be applied a second time where it cannot be
    applied once.  A run resumed from a table with question 1, played in
    2020, finds the package of 2019 and fetches its question 5; the merge of
    the stored row with the new record raises [TypeError] at [sort_values],
    whatever the sort does with the columns it can sort: [main] ends with
    that exception after its four requests, and no table is written. *)
Theorem repeated_merge_raises
    (argsort : list cell -> result (list nat))
    (Hmixed : refuses_mixed argsort) :
  let file := Stored [stored_1] in
  let df_existing :=
    fst (load_existing Doubles.to_datetime Doubles.isoformat file) in
  let cursor :=
    snd (load_existing Doubles.to_datetime Doubles.isoformat file) in
  let w := fresh (Doubles.served (Doubles.older_site cursor)) Doubles.lower in
  let run :=
    main Doubles.repr Doubles.json_dumps Doubles.to_datetime Doubles.isoformat
         Doubles.as_completed argsort 5 Doubles.unlimited file w in
  df_existing = [set_played_at stored_1 (Timestamp 18262)]
  /\ fst (detail_phase Doubles.repr Doubles.json_dumps Doubles.as_completed
             [Doubles.pkg2019] Doubles.unlimited
             (snd (collect_packages 5 Doubles.unlimited cursor 1 [] w)))
     = Ok [fetched_5]
  /\ merge argsort df_existing cursor [fetched_5] = Raise TypeError
  /\ fst run = Raise TypeError
  /\ requested (snd run)
     = [ packages_url 1 cursor; packages_url 2 cursor;
         (BASE_URL ++ "/packages/1/tours")%string;
         (BASE_URL ++ "/tours/10/questions")%string ].
Proof.
  intros file df_existing cursor w run.
  assert (Hsort : argsort [Timestamp 18262; Raw (JStr "2019-01-01T00:00:00")]
                  = Raise TypeError).
  { apply (Hmixed _ 18262 "2019-01-01T00:00:00"%string);
      [left | right; left]; reflexivity. }
  cbv in Hsort. unfold run.
  repeat split; cbv; rewrite ?Hsort; reflexivity.
Qed.

Lemma repeated_merge_raises_witness :
  fst (main Doubles.repr Doubles.json_dumps Doubles.to_datetime
            Doubles.isoformat Doubles.as_completed Doubles.argsort
            5 Doubles.unlimited (Stored [stored_1])
            (fresh (Doubles.served (Doubles.older_site cursor_2020))
                   Doubles.lower))
  = Raise TypeError.
Proof.
  exact (proj1 (proj2 (proj2 (proj2
           (repeated_merge_raises Doubles.argsort argsort_refuses_mixed))))).
Defined.

Lemma returned_merge_keeps_last_witness :
  let new := [fetched_1; fetched_2; fetched_1'] in
  let out := [fetched_1'; fetched_2] in
  NoDup (map question_id out)
  /\ (forall r, In r ([] ++ new) ->
       exists r', In r' out /\ question_id r' = question_id r)
  /\ (forall r,
       In r out
       <-> exists before after,
             [] ++ new = before ++ r :: after
             /\ ~ In (question_id r) (map question_id after)).
Proof.
  intros new out.
  apply (returned_merge_keeps_last Doubles.argsort [] None new out).
  - exact argsort_rearranges.
  - right. reflexivity.
  - reflexivity.
Defined.

Lemma isoformat_nonempty (t : option Z) : Doubles.isoformat t <> ""%string.
Proof.
  destruct t as [d |]; [| discriminate]. unfold Doubles.isoformat. simpl.
  repeat match goal with
         | |- context [d =? ?c] => destruct (d =? c)
         end; discriminate.
Qed.

(** A stored table with question 2 and a new record of question 1 that the
    API left without a date: the merge returns, and returns the same rows
    for the next run. *)
Definition undated_1 : flat_record := Doubles.row (JNum 1) JNull "undated".

Lemma merge_again_same_rows_witness :
  let df := [set_played_at stored_2 (Timestamp 17897); undated_1] in
  Permutation df df
  /\ NoDup (map question_id df)
  /\ List.length df = List.length df.
Proof.
  intros df.
  apply (merge_again_same_rows Doubles.to_datetime Doubles.isoformat
           Doubles.argsort (Stored [stored_2]) [undated_1] df df).
  - exact argsort_rearranges.
  - exact isoformat_nonempty.
  - reflexivity.
  - reflexivity.
Defined.

Lemma second_run_writes_same_table_witness :
  let all_questions_data := [fetched_1; fetched_2; fetched_1'] in
  let df := [fetched_1'; fetched_2] in
  persist Doubles.argsort
          (fst (load_existing Doubles.to_datetime Doubles.isoformat (Stored df)))
          (snd (load_existing Doubles.to_datetime Doubles.isoformat (Stored df)))
          all_questions_data
  = Ok (Write df).
Proof.
  intros all_questions_data df.
  apply (second_run_writes_same_table Doubles.to_datetime Doubles.isoformat
           Doubles.argsort all_questions_data df).
  - exact isoformat_nonempty.
  - reflexivity.
Defined.

(** A question object without [id], served by the API, ends as a written row
    whose question id is null. *)
Lemma null_question_id_is_written :
  let questions :=
    [JObj [("id", JNum 5); ("question", JStr "with id")];
     JObj [("question", JStr "without id")]]%string in
  let w := fresh (Doubles.served (Doubles.small_site questions)) Doubles.lower in
  exists df r,
    fst (main Doubles.repr Doubles.json_dumps Doubles.to_datetime
              Doubles.isoformat Doubles.as_completed Doubles.argsort
              5 Doubles.unlimited Absent w)
    = Ok (Write df)
    /\ In r df
    /\ question_text r = JStr "without id"
    /\ question_id r = JNull.
Proof.
  intros questions w. eexists. eexists. split; [reflexivity |].
  split; [right; left; reflexivity | split; reflexivity].
Qed.

Lemma persisted_question_ids_witness :
  (forall r, In r ([] ++ [fetched_1; fetched_2; fetched_1']) ->
             question_id r <> JNull)
  /\ (forall r, In r [fetched_1'; fetched_2] -> question_id r <> JNull).
Proof.
  assert (H : forall r, In r ([] ++ [fetched_1; fetched_2; fetched_1']) ->
                        question_id r <> JNull).
  { intros r [<- | [<- | [<- | []]]]; discriminate. }
  split; trivial.
  apply (proj2 (persisted_question_ids Doubles.argsort)
               [] None [fetched_1; fetched_2; fetched_1']
               [fetched_1'; fetched_2] eq_refl H).
Defined.

End DbFacts.

(* ================================================================== *)
(** * More facts about src/scraper_gq.py *)
(* ================================================================== *)

Module GqMore.

Import ScraperGq NetFacts GqFacts.
Local Open Scope Z_scope.

(** ** The request loop, whatever the network does *)

(** X1. Whatever the network does, the request loop of a fetcher never
    raises and never runs out of attempts without a decision: it makes [k]
    requests, all to the same URL, with 1 <= k <= 3, it has slept 2 seconds
    before a second and 4 more before a third request, and it leaves with
    the response exactly when its last request met one. *)
Theorem request_loop_bounded (url : string) (w : world string) :
  exists exit k,
    (1 <= k <= 3)%nat
    /\ request_with_retries url w
       = (Ok exit,
          after w (repeat url k) (firstn (k - 1) [inject_Z 2; inject_Z 4]))
    /\ exit <> Exhausted
    /\ (forall text,
          exit = Break text <-> coming w (k - 1) url = Response text).
Proof.
  unfold request_with_retries. change (range RETRIES) with [0; 1; 2].
  destruct (coming w 0 url) as [| | text0] eqn:H0.
  - rewrite request_loop_retry by (trivial; reflexivity).
    set (w1 := after w [url] [inject_Z (2 ^ (0 + 1))]).
    assert (E1 : coming w1 0 url = coming w 1 url)
      by (unfold w1; now rewrite coming_after).
    destruct (coming w 1 url) as [| | text1] eqn:H1.
    + rewrite request_loop_retry by (trivial; reflexivity).
      set (w2 := after w1 [url] [inject_Z (2 ^ (1 + 1))]).
      assert (E2 : coming w2 0 url = coming w 2 url)
        by (unfold w2, w1; now rewrite after_after, coming_after).
      destruct (coming w 2 url) as [| | text2] eqn:H2.
      * rewrite request_loop_give_up by (trivial; unfold RETRIES; lia).
        exists ReturnNone, 3%nat. unfold w2, w1. rewrite !after_after.
        simpl. repeat split; try lia; try discriminate.
        rewrite H2. discriminate.
      * rewrite request_loop_other by trivial.
        exists ReturnNone, 3%nat. unfold w2, w1. rewrite !after_after.
        simpl. repeat split; try lia; try discriminate.
        rewrite H2. discriminate.
      * rewrite (request_loop_break url 2 [] w2 text2) by trivial.
        exists (Break text2), 3%nat. unfold w2, w1. rewrite !after_after.
        simpl. repeat split; try lia; try discriminate.
        -- rewrite H2. congruence.
        -- rewrite H2. congruence.
    + rewrite request_loop_other by trivial.
      exists ReturnNone, 2%nat. unfold w1. rewrite !after_after.
      simpl. repeat split; try lia; try discriminate.
      rewrite H1. discriminate.
    + rewrite (request_loop_break url 1 [2] w1 text1) by trivial.
      exists (Break text1), 2%nat. unfold w1. rewrite !after_after.
      simpl. repeat split; try lia; try discriminate.
      * rewrite H1. congruence.
      * rewrite H1. congruence.
  - rewrite request_loop_other by trivial.
    exists ReturnNone, 1%nat. simpl. repeat split; try lia; try discriminate.
    rewrite H0. discriminate.
  - rewrite (request_loop_break url 0 [1; 2] w text0) by trivial.
    exists (Break text0), 1%nat. simpl. repeat split; try lia; try discriminate.
    + rewrite H0. congruence.
    + rewrite H0. congruence.
Qed.


(** ** Which exceptions can leave the fetchers *)












Section Fetchers.

Variable BeautifulSoup : string -> list string.
Variable literal_eval : string -> result string.
Variable json_loads : string -> result json.
Variable repr : json -> string.











End Fetchers.


(** ** Errors that are not retried *)

(** X3. A request that meets an HTTP error, or any [RequestException] other
    than a connection error, is not retried: the fetcher returns [None]
    after that one request, without sleeping. *)
Theorem http_error_not_retried
    (BeautifulSoup : string -> list string)
    (literal_eval : string -> result string)
    (json_loads : string -> result json) (repr : json -> string)
    (page_num : Z) (pack_id : json) (w : world string)
    (Hpage : coming w 0 (page_url page_num) = RequestFailed)
    (Hpack : coming w 0 (pack_url repr pack_id) = RequestFailed) :
  fetch_tournament_ids_from_page BeautifulSoup literal_eval json_loads
                                 page_num w
  = (Ok None, after w [page_url page_num] [])
  /\ fetch_questions_from_pack BeautifulSoup literal_eval json_loads repr
                               pack_id w
     = (Ok None, after w [pack_url repr pack_id] []).
Proof.
  assert (Hloop : forall url, coming w 0 url = RequestFailed ->
            request_with_retries url w = (Ok ReturnNone, after w [url] [])).
  { intros url H. unfold request_with_retries.
    change (range RETRIES) with [0; 1; 2]. now apply request_loop_other. }
  split.
  - now rewrite (fetch_ids_after_loop _ _ _ _ _ _ _ (Hloop _ Hpage)).
  - now rewrite (fetch_questions_after_loop _ _ _ _ _ _ _ _ (Hloop _ Hpack)).
Qed.

Lemma http_error_not_retried_witness :
  let w : world string := fresh (fun _ _ => RequestFailed) Doubles.lower in
  fetch_tournament_ids_from_page Doubles.BeautifulSoup Doubles.literal_eval
                                 Doubles.json_loads 1 w
  = (Ok None, after w [page_url 1] [])
  /\ fetch_questions_from_pack Doubles.BeautifulSoup Doubles.literal_eval
                               Doubles.json_loads Doubles.repr (JNum 1) w
     = (Ok None, after w [pack_url Doubles.repr (JNum 1)] []).
Proof.
  intros w.
  apply (http_error_not_retried Doubles.BeautifulSoup Doubles.literal_eval
           Doubles.json_loads Doubles.repr 1 (JNum 1) w); reflexivity.
Defined.

(** ** The script that is picked *)

(** Lengths are counted in characters: three Cyrillic letters are shorter
    than five Latin ones, although they take six bytes. *)
Example str_len_cyrillic :
  let yayaya := (Doubles.ya ++ Doubles.ya ++ Doubles.ya)%string in
  str_len yayaya = 3%nat /\ String.length yayaya = 6%nat
  /\ str_len "abcde" = 5%nat
  /\ chars yayaya = [JStr Doubles.ya; JStr Doubles.ya; JStr Doubles.ya].
Proof. repeat split. Qed.

Definition shorter (s : string) (x : string) : Prop :=
  (str_len x < str_len s)%nat.
Definition not_longer (s : string) (x : string) : Prop :=
  (str_len x <= str_len s)%nat.

Lemma longest_fold (rest : list string) :
  forall (pre : list string) (best : string) (mid : list string),
    Forall (shorter best) pre -> Forall (not_longer best) mid ->
    exists pre' post',
      pre ++ best :: mid ++ rest
      = pre' ++ fold_left
                  (fun best x =>
                     if (str_len best <? str_len x)%nat
                     then x else best)
                  rest best :: post'
      /\ Forall (shorter (fold_left
                            (fun best x =>
                               if (str_len best <? str_len x)%nat
                               then x else best)
                            rest best)) pre'
      /\ Forall (not_longer (fold_left
                               (fun best x =>
                                  if (str_len best <? str_len x)%nat
                                  then x else best)
                               rest best)) post'.
Proof.
  induction rest as [| x rest IH]; intros pre best mid Hpre Hmid.
  - exists pre, mid. simpl. rewrite app_nil_r. auto.
  - simpl. destruct (Nat.ltb_spec (str_len best) (str_len x)).
    + destruct (IH (pre ++ best :: mid) x []) as (pre' & post' & E & H1 & H2).
      * apply Forall_app. split.
        -- eapply Forall_impl; [| exact Hpre]. unfold shorter. intros; lia.
        -- constructor; [exact H |].
           eapply Forall_impl; [| exact Hmid].
           unfold shorter, not_longer. intros; lia.
      * constructor.
      * exists pre', post'. split; [| auto].
        rewrite <- E. simpl. now rewrite <- app_assoc.
    + destruct (IH pre best (mid ++ [x])) as (pre' & post' & E & H1 & H2).
      * exact Hpre.
      * apply Forall_app. split; [exact Hmid |]. constructor; [exact H | constructor].
      * exists pre', post'. split; [| auto].
        rewrite <- E. now rewrite <- app_assoc.
Qed.

(** X4. The script [extract_json_from_script] works on is the first one of
    maximal text length, counted in characters: every script before it is
    strictly shorter, none after it is longer; only an empty list of scripts
    gives none. *)
Theorem longest_first_maximal (scripts : list string) (s : string)
    (Hs : longest scripts = Some s) :
  scripts <> []
  /\ exists before after,
       scripts = before ++ s :: after
       /\ Forall (shorter s) before
       /\ Forall (not_longer s) after.
Proof.
  destruct scripts as [| first rest]; [discriminate |].
  split; [discriminate |].
  simpl in Hs. inversion Hs as [E]. clear Hs.
  destruct (longest_fold rest [] first []) as (pre & post & Heq & H1 & H2);
    [constructor | constructor |].
  exists pre, post. simpl in Heq. rewrite E in *. auto.
Qed.

Lemma longest_first_maximal_witness :
  let yayaya := (Doubles.ya ++ Doubles.ya ++ Doubles.ya)%string in
  let scripts := [ yayaya; "abcde"; "vwxyz"; "a" ]%string in
  scripts <> []
  /\ exists before after,
       scripts = before ++ "abcde"%string :: after
       /\ Forall (shorter "abcde") before
       /\ Forall (not_longer "abcde") after.
Proof.
  intros yayaya scripts.
  apply (longest_first_maximal scripts "abcde").
  reflexivity.
Defined.

(** ** The blob cut out of the script *)

Lemma find_from_app (c : ascii) (pre rest : list ascii) (i : Z) :
  ~ In c pre -> find_from c (pre ++ c :: rest) i = i + len pre.
Proof.
  revert i. induction pre as [| x pre IH]; intros i Hn; simpl.
  - rewrite Ascii.eqb_refl. unfold len. simpl. lia.
  - destruct (Ascii.eqb_spec x c) as [-> | _]; [exfalso; apply Hn; now left |].
    rewrite IH by (intros H; apply Hn; now right).
    unfold len. simpl List.length. lia.
Qed.

Lemma rfind_from_absent (c : ascii) (l : list ascii) (i best : Z) :
  ~ In c l -> rfind_from c l i best = best.
Proof.
  revert i. induction l as [| x l IH]; intros i Hn; simpl; trivial.
  destruct (Ascii.eqb_spec x c) as [-> | _]; [exfalso; apply Hn; now left |].
  apply IH. intros H. apply Hn. now right.
Qed.

Lemma rfind_from_app (c : ascii) (pre suffix : list ascii) (i best : Z) :
  ~ In c suffix ->
  rfind_from c (pre ++ c :: suffix) i best = i + len pre.
Proof.
  revert i best. induction pre as [| x pre IH]; intros i best Hn; simpl.
  - rewrite Ascii.eqb_refl, rfind_from_absent by trivial.
    unfold len. simpl. lia.
  - rewrite IH by trivial. unfold len. simpl List.length. lia.
Qed.

Lemma slice_middle (pre mid post : list ascii) :
  slice (pre ++ mid ++ post) (len pre) (len pre + len mid) = mid.
Proof.
  unfold slice, len. rewrite !length_app.
  set (a := Z.of_nat (List.length pre)).
  set (m := Z.of_nat (List.length mid)).
  set (n := Z.of_nat (List.length pre + (List.length mid + List.length post))).
  assert (Hn : n = a + m + Z.of_nat (List.length post)) by (unfold n, a, m; lia).
  assert (Ha : 0 <= a) by (unfold a; lia).
  assert (Hm : 0 <= m) by (unfold m; lia).
  destruct (Z.ltb_spec a 0); [lia |].
  destruct (Z.ltb_spec (a + m) 0); [lia |].
  rewrite !Z.min_l by lia.
  replace (a + m - a) with m by lia.
  unfold a, m. rewrite !Nat2Z.id.
  rewrite skipn_app, skipn_all, Nat.sub_diag. simpl.
  rewrite firstn_app, firstn_all, Nat.sub_diag. simpl. apply app_nil_r.
Qed.

Lemma lstrip_all (set lead rest : list ascii) :
  Forall (fun c => in_set set c = true) lead ->
  lstrip set (lead ++ rest) = lstrip set rest.
Proof.
  induction 1 as [| c lead Hc _ IH]; simpl; trivial. now rewrite Hc.
Qed.

Lemma lstrip_stops (set data : list ascii) :
  (forall c rest, data = c :: rest -> in_set set c = false) ->
  lstrip set data = data.
Proof.
  destruct data as [| c rest]; simpl; trivial. intros H.
  now rewrite (H c rest eq_refl).
Qed.

Lemma rstrip_all (set data trail : list ascii) :
  Forall (fun c => in_set set c = true) trail ->
  rstrip set (data ++ trail) = rstrip set data.
Proof.
  intros H. unfold rstrip. rewrite rev_app_distr. f_equal.
  apply lstrip_all. now apply Forall_rev.
Qed.

Lemma rstrip_stops (set data : list ascii) :
  (forall rest c, data = rest ++ [c] -> in_set set c = false) ->
  rstrip set data = data.
Proof.
  intros H. unfold rstrip. rewrite lstrip_stops; [apply rev_involutive |].
  intros c rest E. apply (H (rev rest) c).
  rewrite <- (rev_involutive data), E. reflexivity.
Qed.

Definition prefix_chars : list ascii := list_ascii_of_string "1234567890:".
Definition tail_chars : list ascii := [backslash; "n"%char].

(** X5. When the longest script reads [prefix "lead body trail" suffix], with
    no quote in [prefix] and [suffix], [lead] made of digits and colons,
    [trail] of backslashes and the letter n, and [body] neither starting
    with a digit or colon nor ending with a backslash or an n, then
    [extract_json_from_script] hands exactly ["body"] to [ast.literal_eval]
    and the result of that to [json.loads]; it returns the decoded value, and
    [None] when either of the two raises. *)
Theorem extract_cuts_blob
    (literal_eval : string -> result string)
    (json_loads : string -> result json)
    (soup : list string) (prefix lead body trail suffix : list ascii)
    (Hlongest :
       longest soup
       = Some (string_of_list_ascii
                 (prefix ++ quote :: (lead ++ body ++ trail) ++ quote :: suffix)))
    (Hprefix : ~ In quote prefix)
    (Hsuffix : ~ In quote suffix)
    (Hlead : Forall (fun c => in_set prefix_chars c = true) lead)
    (Htrail : Forall (fun c => in_set tail_chars c = true) trail)
    (Hfirst : forall c rest, body = c :: rest -> in_set prefix_chars c = false)
    (Hlast : forall rest c, body = rest ++ [c] -> in_set tail_chars c = false) :
  extract_json_from_script literal_eval json_loads soup
  = match literal_eval
            (String quote (string_of_list_ascii body ++ String quote ""))
    with
    | Ok unescaped =>
        match json_loads unescaped with
        | Ok v => Ok (Some v)
        | Raise _ => Ok None
        end
    | Raise _ => Ok None
    end.
Proof.
  unfold extract_json_from_script. rewrite Hlongest.
  rewrite list_ascii_of_string_of_list_ascii.
  set (mid := lead ++ body ++ trail).
  unfold find, rfind. rewrite find_from_app by trivial.
  replace (prefix ++ quote :: mid ++ quote :: suffix)
    with ((prefix ++ quote :: mid) ++ quote :: suffix)
    by (rewrite <- app_assoc; reflexivity).
  rewrite rfind_from_app by trivial.
  replace ((prefix ++ quote :: mid) ++ quote :: suffix)
    with ((prefix ++ [quote]) ++ mid ++ quote :: suffix)
    by (rewrite <- !app_assoc; reflexivity).
  replace (0 + len prefix + 1) with (len (prefix ++ [quote]))
    by (unfold len; rewrite length_app; simpl; lia).
  replace (0 + len (prefix ++ quote :: mid))
    with (len (prefix ++ [quote]) + len mid)
    by (unfold len; rewrite !length_app; simpl; lia).
  rewrite slice_middle. unfold mid.
  fold prefix_chars. rewrite lstrip_all by trivial.
  fold tail_chars.
  assert (Hbody : lstrip prefix_chars (body ++ trail) = body ++ trail).
  { apply lstrip_stops. intros c rest E.
    destruct body as [| b body']; simpl in E.
    - subst trail. inversion Htrail as [| ? ? Hc _]; subst.
      unfold in_set, tail_chars in Hc. simpl in Hc.
      rewrite !orb_true_iff in Hc.
      destruct Hc as [Hc | [Hc | Hc]]; try discriminate;
        apply Ascii.eqb_eq in Hc; subst c; reflexivity.
    - inversion E; subst. eapply Hfirst. reflexivity. }
  rewrite Hbody, rstrip_all, rstrip_stops by trivial.
  destruct (literal_eval _) as [unescaped | e]; simpl.
  - destruct (json_loads unescaped) as [v | e]; simpl; trivial.
    now destruct e.
  - now destruct e.
Qed.

Lemma extract_cuts_blob_witness :
  extract_json_from_script Doubles.literal_eval Doubles.json_loads
    [ "short"%string; Doubles.page "[0,0,0,null]" ]
  = Ok (Some (JArr [JNum 0; JNum 0; JNum 0; JNull])).
Proof.
  apply (extract_cuts_blob Doubles.literal_eval Doubles.json_loads
           [ "short"%string; Doubles.page "[0,0,0,null]" ]
           (list_ascii_of_string "self.__next_f.push([1,")
           (list_ascii_of_string "5:")
           (list_ascii_of_string "[0,0,0,null]")
           tail_chars
           (list_ascii_of_string "])")).
  - reflexivity.
  - intros H. simpl in H.
    repeat (destruct H as [H | H]; [discriminate |]). exact H.
  - intros H. simpl in H.
    repeat (destruct H as [H | H]; [discriminate |]). exact H.
  - repeat constructor.
  - repeat constructor.
  - intros c rest E. inversion E. reflexivity.
  - intros rest c E.
    assert (Hc : c = "]"%char).
    { apply (f_equal (@rev ascii)) in E. rewrite rev_app_distr in E.
      simpl in E. now inversion E. }
    subst c. reflexivity.
Defined.

(** ** Flattening a question *)

(** The row of a question dictionary [q] with the author [author]. *)
Definition row_with (q : dict) (author : json) : processed_data :=
  Processed (dict_get q "id" JNull) (dict_get q "number" JNull)
            (dict_get q "text" JNull) (dict_get q "razdatkaText" JNull)
            (dict_get q "razdatkaPic" JNull) (dict_get q "answer" JNull)
            (dict_get q "zachet" JNull) (dict_get q "comment" JNull)
            (dict_get q "source" JNull) author
            (dict_get q "packTitle" JNull) (dict_get q "endDate" JNull).

(** X6. A question dictionary is flattened field by field, a missing field
    giving [None].  The author is the [name] of the first element of
    [authors]; it is [None] when [authors] is missing or an empty list.
    When [authors] is present but null, [len(None)] raises [TypeError]; a
    question that is no dictionary raises [AttributeError]. *)
Theorem process_question_author (q : dict) :
  (lookup "authors" q = None \/ lookup "authors" q = Some (JArr []) ->
   process_question (JObj q) = Ok (row_with q JNull))
  /\ (forall a rest,
       lookup "authors" q = Some (JArr (JObj a :: rest)) ->
       process_question (JObj q) = Ok (row_with q (dict_get a "name" JNull)))
  /\ (lookup "authors" q = Some JNull ->
       process_question (JObj q) = Raise TypeError)
  /\ (forall v, (forall d, v <> JObj d) ->
                process_question v = Raise AttributeError).
Proof.
  repeat split.
  - intros H.
    assert (Ha : dict_get q "authors" (JArr []) = JArr [])
      by (unfold dict_get; destruct H as [-> | ->]; reflexivity).
    unfold process_question. cbn [get rbind]. rewrite Ha. reflexivity.
  - intros a rest H.
    assert (Ha : dict_get q "authors" (JArr []) = JArr (JObj a :: rest))
      by (unfold dict_get; now rewrite H).
    unfold process_question. cbn [get rbind]. rewrite Ha. reflexivity.
  - intros H.
    assert (Ha : dict_get q "authors" (JArr []) = JNull)
      by (unfold dict_get; now rewrite H).
    unfold process_question. cbn [get rbind]. rewrite Ha. reflexivity.
  - intros v Hv. destruct v; try reflexivity. now destruct (Hv fields).
Qed.

Lemma process_question_author_witness :
  let q : dict :=
    [ ("id", JNum 9); ("text", JStr "who");
      ("authors", JArr [JObj [("name", JStr "Ann")]; JObj [("name", JStr "Bob")]]) ]%string in
  process_question (JObj q) = Ok (row_with q (JStr "Ann")).
Proof.
  intros q.
  apply (proj1 (proj2 (process_question_author q)) [("name", JStr "Ann")]%string
               [JObj [("name", JStr "Bob")]]%string).
  reflexivity.
Defined.

(** ** A run in which every request fails *)

Section AllFail.

Variable BeautifulSoup : string -> list string.
Variable literal_eval : string -> result string.
Variable json_loads : string -> result json.
Variable repr : json -> string.
Variable a : args.






End AllFail.



End GqMore.

(* ================================================================== *)
(** * More facts about src/scraper_db.py *)
(* ================================================================== *)

Module DbMore.

Import ScraperDb NetFacts DbFacts.
Local Open Scope Z_scope.

(** ** Fetching *)


(** ** Units without an id *)

Section Units.

Variable repr : json -> string.
Variable json_dumps : json -> string.

(** X9. A tour or a package whose [id] is missing, null, zero or empty is
    skipped before any request: the result is empty and nothing was
    requested or slept. *)
Theorem units_without_id_are_skipped
    (unit : dict) (package_info : json) (a : args) (w : world body)
    (Hid : truthy (dict_get unit "id" JNull) = false) :
  process_tour repr json_dumps (JObj unit) package_info a w = (Ok [], w)
  /\ process_package repr json_dumps (JObj unit) a w = (Ok [], w).
Proof.
  split.
  - unfold process_tour, bind, lift. cbn [get]. now rewrite Hid.
  - unfold process_package, bind, lift. cbn [get]. now rewrite Hid.
Qed.

(** The URLs of the detail requests. *)
Definition questions_url (tour_id : json) : string :=
  (BASE_URL ++ "/tours/" ++ str repr tour_id ++ "/questions")%string.
Definition tours_url (package_id : json) : string :=
  (BASE_URL ++ "/packages/" ++ str repr package_id ++ "/tours")%string.

(** The record of question [q] of tour [t] of package [p]. *)
Definition flat_of (p t q : dict) : flat_record :=
  Flat (dict_get p "id" JNull) (dict_get p "title" JNull)
       (Raw (dict_get p "playedAt" JNull))
       (JStr (json_dumps (dict_get p "editors" JNull)))
       (dict_get p "info" JNull)
       (dict_get t "id" JNull) (dict_get t "title" JNull)
       (dict_get t "number" JNull)
       (dict_get q "id" JNull) (dict_get q "number" JNull)
       (dict_get q "type" JNull) (dict_get q "question" JNull)
       (dict_get q "answer" JNull) (dict_get q "passCriteria" JNull)
       (JStr (json_dumps (dict_get q "authors" JNull)))
       (JStr (json_dumps (dict_get q "sources" JNull)))
       (dict_get q "comments" JNull).




End Units.

Lemma units_without_id_are_skipped_witness :
  let unit : dict := [("title", JStr "untitled"); ("id", JNum 0)]%string in
  let w : world body :=
    fresh (Doubles.served (Doubles.small_site [])) Doubles.lower in
  process_tour Doubles.repr Doubles.json_dumps (JObj unit) Doubles.pkg2021
               Doubles.unlimited w = (Ok [], w)
  /\ process_package Doubles.repr Doubles.json_dumps (JObj unit)
                     Doubles.unlimited w = (Ok [], w).
Proof.
  intros unit w.
  apply (units_without_id_are_skipped Doubles.repr Doubles.json_dumps unit
           Doubles.pkg2021 Doubles.unlimited w).
  reflexivity.
Defined.

Definition tour_20 : dict :=
  [("id", JNum 20); ("title", JStr "tour"); ("number", JNum 1)]%string.
Definition package_2 : dict :=
  [("id", JNum 2); ("title", JStr "pack");
   ("playedAt", JStr "2021-01-01T00:00:00")]%string.
Definition two_questions : list dict :=
  [ [("id", JNum 5); ("question", JStr "first")];
    [("id", JNum 6); ("question", JStr "second")] ]%string.



(** ** The cursor *)

Section Tables.

Variable to_datetime : json -> option Z.
Variable isoformat : option Z -> string.

(** The time [pd.to_datetime] reads in the played-at cell of a row. *)
Definition time_of (r : flat_record) : option Z :=
  match to_datetime_cell to_datetime (package_played_at r) with
  | Timestamp t => Some t
  | _ => None
  end.

(** [m] is the latest time among the rows of [df]: the time of one of its
    rows that no other row exceeds, or [None] when no row has a time. *)
Definition latest_of (time : flat_record -> option Z) (df : table)
    (m : option Z) : Prop :=
  match m with
  | None => forall r, In r df -> time r = None
  | Some b =>
      (exists r, In r df /\ time r = Some b)
      /\ forall r t, In r df -> time r = Some t -> t <= b
  end.

Lemma max_played_at_fold (df : table) :
  forall (seen : table) (best : option Z),
    latest_of played_at seen best ->
    latest_of played_at (seen ++ df)
      (fold_left
         (fun best r =>
            match best, played_at r with
            | Some b, Some t => Some (Z.max b t)
            | None, t => t
            | b, None => b
            end)
         df best).
Proof.
  induction df as [| x df IH]; intros seen best H; simpl.
  - now rewrite app_nil_r.
  - replace (seen ++ x :: df) with ((seen ++ [x]) ++ df)
      by (rewrite <- app_assoc; reflexivity).
    apply IH. unfold latest_of in *.
    destruct best as [b |], (played_at x) as [t |] eqn:Ex.
    + destruct H as ((r & Hr & Hb) & Hmax). split.
      * destruct (Z.max_spec b t) as [[_ ->] | [_ ->]].
        -- exists x. split; [apply in_or_app; right; now left | trivial].
        -- exists r. split; [apply in_or_app; now left | trivial].
      * intros r' t' Hin Ht. apply in_app_or in Hin as [Hin | [<- | []]].
        -- specialize (Hmax r' t' Hin Ht). lia.
        -- rewrite Ex in Ht. inversion Ht. lia.
    + destruct H as ((r & Hr & Hb) & Hmax). split.
      * exists r. split; [apply in_or_app; now left | trivial].
      * intros r' t' Hin Ht. apply in_app_or in Hin as [Hin | [<- | []]].
        -- now apply (Hmax r' t').
        -- rewrite Ex in Ht. discriminate.
    + split.
      * exists x. split; [apply in_or_app; right; now left | trivial].
      * intros r' t' Hin Ht. apply in_app_or in Hin as [Hin | [<- | []]].
        -- rewrite (H r' Hin) in Ht. discriminate.
        -- rewrite Ex in Ht. inversion Ht. lia.
    + intros r' Hin. apply in_app_or in Hin as [Hin | [<- | []]]; auto.
Qed.

(** The rows kept from a stored table: those whose played-at parses, with
    the [Timestamp] in its place. *)
Lemma kept_rows (df : table) (r : flat_record) :
  In r (dropna (to_datetime_column to_datetime df))
  <-> exists stored t,
        In stored df /\ time_of stored = Some t
        /\ r = set_played_at stored (Timestamp t).
Proof.
  unfold dropna, to_datetime_column, time_of.
  rewrite filter_In, in_map_iff. split.
  - intros [(stored & <- & Hin) Hna]. simpl in Hna.
    destruct (to_datetime_cell to_datetime (package_played_at stored))
      as [v | t |] eqn:E.
    + destruct (package_played_at stored) as [v' | t' |]; simpl in E;
        try discriminate.
      destruct (to_datetime v'); discriminate.
    + exists stored, t. rewrite E. auto.
    + discriminate.
  - intros (stored & t & Hin & Ht & ->).
    destruct (to_datetime_cell to_datetime (package_played_at stored))
      as [v | t' |] eqn:E; try discriminate.
    inversion Ht; subst t'. split; [| reflexivity].
    exists stored. now rewrite E.
Qed.

(** X12. From a stored table with at least one row, [main] keeps the rows
    whose played-at parses, each with the [Timestamp] read in it, and takes
    as cursor the ISO form of the latest played-at of the table: the time of
    one of its rows, below which all other times lie; when no row has a time
    the cursor is the ISO form of [NaT], and it is still set. *)
Theorem cursor_is_latest (df : table) (Hrows : df <> []) :
  exists m,
    load_existing to_datetime isoformat (Stored df)
    = (dropna (to_datetime_column to_datetime df), Some (isoformat m))
    /\ latest_of time_of df m
    /\ forall r,
         In r (dropna (to_datetime_column to_datetime df))
         <-> exists stored t,
               In stored df /\ time_of stored = Some t
               /\ r = set_played_at stored (Timestamp t).
Proof.
  set (kept := dropna (to_datetime_column to_datetime df)).
  exists (max_played_at kept).
  split; [| split; [| apply kept_rows]].
  - destruct df as [| x df]; [congruence | reflexivity].
  - pose proof (max_played_at_fold kept [] None) as H.
    simpl in H. fold (max_played_at kept) in H.
    specialize (H (fun r F => match F with end)).
    unfold latest_of in *.
    destruct (max_played_at kept) as [b |].
    + destruct H as ((r & Hr & Hb) & Hmax). split.
      * apply kept_rows in Hr as (stored & t & Hin & Ht & ->).
        exists stored. split; [exact Hin |].
        unfold played_at in Hb. simpl in Hb. congruence.
      * intros stored t Hin Ht.
        apply (Hmax (set_played_at stored (Timestamp t)) t); [| reflexivity].
        apply kept_rows. eauto.
    + intros stored Hin. destruct (time_of stored) as [t |] eqn:Ht; trivial.
      assert (Hk : In (set_played_at stored (Timestamp t)) kept)
        by (apply kept_rows; eauto).
      apply H in Hk. discriminate.
Qed.

(** ** The written table *)

Variable argsort : list cell -> result (list nat).

(** X14. When no question id occurs twice among the prior rows and the new
    records, a merge that returns a table has dropped nothing: the table is
    a rearrangement of prior table plus new records. *)
Theorem distinct_ids_lose_nothing
    (df_existing : table) (last_played_at : option string) (df_new out : table)
    (Hperm : rearranges argsort)
    (Hprior : is_set last_played_at = true \/ df_existing = [])
    (Hdistinct : NoDup (map question_id (df_existing ++ df_new)))
    (Hout : merge argsort df_existing last_played_at df_new = Ok out) :
  Permutation out (df_existing ++ df_new)
  /\ List.length out = (List.length df_existing + List.length df_new)%nat.
Proof.
  assert (Hf : df_final df_existing last_played_at df_new
               = df_existing ++ df_new).
  { unfold df_final. destruct Hprior as [-> | ->]; trivial.
    now destruct (is_set last_played_at). }
  assert (Hp : Permutation out (df_existing ++ df_new)).
  { rewrite (merge_perm _ _ _ _ _ Hperm Hout), Hf.
    now rewrite drop_duplicates_fixed. }
  split; [exact Hp |].
  rewrite (Permutation_length Hp). apply length_app.
Qed.

End Tables.

Lemma cursor_is_latest_witness :
  exists m,
    load_existing Doubles.to_datetime Doubles.isoformat
                  (Stored [stored_2; stored_1])
    = (dropna (to_datetime_column Doubles.to_datetime [stored_2; stored_1]),
       Some (Doubles.isoformat m))
    /\ latest_of (time_of Doubles.to_datetime) [stored_2; stored_1] m
    /\ forall r,
         In r (dropna (to_datetime_column Doubles.to_datetime
                         [stored_2; stored_1]))
         <-> exists stored t,
               In stored [stored_2; stored_1]
               /\ time_of Doubles.to_datetime stored = Some t
               /\ r = set_played_at stored (Timestamp t).
Proof.
  apply (cursor_is_latest Doubles.to_datetime Doubles.isoformat
           [stored_2; stored_1]).
  discriminate.
Defined.

Lemma distinct_ids_lose_nothing_witness :
  Permutation [fetched_1; fetched_2] ([] ++ [fetched_2; fetched_1])
  /\ List.length [fetched_1; fetched_2]
     = (List.length (@nil flat_record) + List.length [fetched_2; fetched_1])%nat.
Proof.
  apply (distinct_ids_lose_nothing Doubles.argsort [] None
           [fetched_2; fetched_1] [fetched_1; fetched_2]).
  - exact argsort_rearranges.
  - right. reflexivity.
  - simpl. constructor.
    + intros [H | []]. discriminate.
    + constructor; [intros [] | constructor].
  - reflexivity.
Defined.

(** ** Ways the listing loop ends *)



(** X16. With [--limit 0], or a negative limit, [main] requests nothing and
    returns without writing, whatever the output file holds; with a
    [--workers] that is not positive it raises [ValueError] instead, and has
    requested nothing either. *)
Theorem limit_zero_does_nothing
    (repr json_dumps : json -> string) (to_datetime : json -> option Z)
    (isoformat : option Z -> string)
    (as_completed : forall A : Type, list A -> list A)
    (argsort : list cell -> result (list nat))
    (fuel : nat) (a : args) (file : file_state) (w : world body) (l : Z)
    (Hlimit : limit a = Some l) (Hl : l <= 0) :
  main repr json_dumps to_datetime isoformat as_completed argsort
       (S fuel) a file w
  = (if 0 <? workers a then Ok NoWrite else Raise ValueError, w).
Proof.
  unfold main.
  destruct (load_existing to_datetime isoformat file) as [df_existing cursor].
  rewrite Z.leb_antisym. destruct (0 <? workers a); [| reflexivity].
  cbn [negb collect_packages]. unfold limit_reached. rewrite Hlimit.
  destruct (Z.leb_spec l (len (@nil json))) as [_ | H];
    [reflexivity | unfold len in H; simpl in H; lia].
Qed.

Lemma limit_zero_does_nothing_witness :
  let w : world body :=
    fresh (Doubles.served (Doubles.small_site [])) Doubles.lower in
  main Doubles.repr Doubles.json_dumps Doubles.to_datetime Doubles.isoformat
       Doubles.as_completed Doubles.argsort 5 (Doubles.limited 0)
       (Stored [stored_1]) w
  = (Ok NoWrite, w).
Proof.
  intros w.
  apply (limit_zero_does_nothing Doubles.repr Doubles.json_dumps
           Doubles.to_datetime Doubles.isoformat Doubles.as_completed
           Doubles.argsort 4 (Doubles.limited 0) (Stored [stored_1]) w 0).
  - reflexivity.
  - lia.
Defined.



Lemma net_after {B} (w : world B) urls zs : net (after w urls zs) = net w.
Proof. reflexivity. Qed.

(** X17. The limit is overshot by less than one page: when no listing page
    brings more than [s] packages and fewer than [l + s] are collected so
    far, the loop ends with fewer than [l + s] packages. *)
Theorem limit_overshoot_is_bounded (fuel : nat) :
  forall (a : args) (cursor : option string) (page : Z) (acc : list json)
         (w w' : world body) (l s : Z) (packages_to_process : list json)
         (Hlimit : limit a = Some l)
         (Hpage : forall n url data members,
                    net w n url = Response (Some data) ->
                    iter (dict_get data "hydra:member" JNull) = Ok members ->
                    len members <= s)
         (Hacc : len acc < l + s)
         (Hrun : collect_packages fuel a cursor page acc w
                 = (Ok (Some packages_to_process), w')),
    len packages_to_process < l + s.
Proof.
  induction fuel as [| fuel IH];
    intros a cursor page acc w w' l s pkgs Hlimit Hpage Hacc Hrun.
  - discriminate.
  - cbn [collect_packages] in Hrun. unfold limit_reached in Hrun.
    rewrite Hlimit in Hrun.
    destruct (Z.leb_spec l (len acc)) as [_ | Hlt].
    { inversion Hrun; subst. exact Hacc. }
    unfold bind at 1 in Hrun.
    destruct (Qle_bool 0 (delay a)) eqn:Hdelay;
      [| rewrite fetch_data_negative in Hrun by exact Hdelay; discriminate].
    rewrite fetch_data_once in Hrun by exact Hdelay.
    destruct (coming w 0 (packages_url page cursor)) as [| | [data |]] eqn:Hc;
      cbn [payload] in Hrun; cbv iota beta in Hrun;
      try (inversion Hrun; subst; exact Hacc).
    destruct (negb (truthy (JObj data)) || negb (dict_has data "hydra:member")
              || negb (truthy (dict_get data "hydra:member" JNull)));
      [inversion Hrun; subst; exact Hacc |].
    unfold bind, lift in Hrun.
    destruct (iter (dict_get data "hydra:member" JNull)) as [members | e] eqn:Hi;
      [| discriminate].
    apply (IH a cursor (page + 1) (acc ++ members)
              (after w [packages_url page cursor] [delay a]) w' l s pkgs);
      trivial.
    unfold len. rewrite length_app.
    specialize (Hpage _ _ _ _ Hc Hi). unfold len in *. lia.
Qed.

Lemma limit_overshoot_is_bounded_witness :
  len [Doubles.pkg2021; Doubles.pkg2019] < 1 + 2.
Proof.
  pose (w := fresh (Doubles.served
                      (Doubles.listing_pages 1
                         [[Doubles.pkg2021; Doubles.pkg2019]]))
                   Doubles.lower : world body).
  apply (limit_overshoot_is_bounded 5 (Doubles.limited 1) None 1 [] w
           (snd (collect_packages 5 (Doubles.limited 1) None 1 [] w))
           1 2 [Doubles.pkg2021; Doubles.pkg2019]).
  - reflexivity.
  - intros n url data members Hnet Hiter.
    unfold w, fresh, net, Doubles.served in Hnet.
    destruct (find _ _) as [route |] eqn:Hf; [| discriminate].
    inversion Hnet; subst data. clear Hnet.
    simpl in Hf.
    repeat match type of Hf with
           | (if ?c then _ else _) = _ => destruct c
           end;
      inversion Hf; subst route; simpl in Hiter; inversion Hiter;
      unfold len; simpl; lia.
  - unfold len. simpl. lia.
  - reflexivity.
Defined.

(** ** The detail phase *)

Section Pool.

Variable repr : json -> string.
Variable json_dumps : json -> string.
Variable as_completed : forall A : Type, list A -> list A.
Variable a : args.

(** The records a finished task contributes. *)
Definition records_of (f : future) : list flat_record :=
  match snd f with
  | Ok questions => questions
  | Raise _ => []
  end.

Definition is_dict (v : json) : Prop := exists d, v = JObj d.

(** The pool: the tasks run one after the other in submission order, each
    in the world the one before it left; the futures, and the world after
    the last task. *)
Fixpoint run_tasks (pkgs : list json) (w : world body)
    : list future * world body :=
  match pkgs with
  | [] => ([], w)
  | pkg :: rest =>
      let (r, w1) := process_package repr json_dumps pkg a w in
      let (fs, w') := run_tasks rest w1 in
      ((pkg, r) :: fs, w')
  end.

Lemma run_tasks_packages (pkgs : list json) :
  forall w : world body, map fst (fst (run_tasks pkgs w)) = pkgs.
Proof.
  induction pkgs as [| pkg pkgs IH]; intros w; simpl; trivial.
  destruct (process_package repr json_dumps pkg a w) as [r w1].
  specialize (IH w1). destruct (run_tasks pkgs w1) as [fs w'].
  simpl in *. now rewrite IH.
Qed.

Lemma submit_all (pkgs : list json) :
  forall (futures : list future) (w : world body),
    for_each pkgs
      (fun pkg futures =>
         bind (submit repr json_dumps pkg a) (fun f => ret (futures ++ [f])))
      futures w
    = (Ok (futures ++ fst (run_tasks pkgs w)), snd (run_tasks pkgs w)).
Proof.
  induction pkgs as [| pkg pkgs IH]; intros futures w.
  - simpl. now rewrite app_nil_r.
  - cbn [for_each run_tasks]. unfold bind at 1. unfold bind at 1.
    unfold submit at 1.
    destruct (process_package repr json_dumps pkg a w) as [r w1].
    unfold ret at 1. rewrite IH.
    destruct (run_tasks pkgs w1) as [fs w']. simpl.
    now rewrite <- app_assoc.
Qed.

Lemma read_all (fs : list future) :
  forall (all_questions_data : list flat_record) (w : world body),
    Forall (fun f => is_dict (fst f)) fs ->
    for_each fs
      (fun (f : future) all_questions_data =>
         match snd f with
         | Ok questions =>
             match questions with
             | [] => ret all_questions_data
             | _ => ret (all_questions_data ++ questions)
             end
         | Raise _ =>
             bind (lift (get (fst f) "title" (JStr "N/A")))
                  (fun _ => ret all_questions_data)
         end)
      all_questions_data w
    = (Ok (all_questions_data ++ List.concat (map records_of fs)), w).
Proof.
  induction fs as [| f fs IH]; intros all w Hfs.
  - simpl. now rewrite app_nil_r.
  - inversion Hfs as [| ? ? (d & Hd) Hrest]; subst.
    cbn [for_each map List.concat]. unfold bind at 1. unfold records_of at 1.
    destruct (snd f) as [[| q questions] | e].
    + unfold ret at 1. rewrite IH by trivial. reflexivity.
    + unfold ret at 1. rewrite IH by trivial. now rewrite <- app_assoc.
    + rewrite Hd. unfold bind, lift, ret. cbn [get].
      rewrite IH by trivial. reflexivity.
Qed.

(** X18. When every package of the listing is an object and [as_completed]
    hands back futures of the pool only, the detail phase never raises.  It
    runs one task per package; the records it collects are those of the
    tasks that returned, put together in the order of completion, and a
    task that raised contributes nothing. *)
Theorem detail_phase_survives_failed_tasks
    (packages_to_process : list json) (w : world body)
    (Hcompleted : forall (A : Type) (l : list A) (x : A),
                    In x (as_completed A l) -> In x l)
    (Hdicts : Forall is_dict packages_to_process) :
  detail_phase repr json_dumps as_completed packages_to_process a w
  = (Ok (List.concat
           (map records_of
                (as_completed _ (fst (run_tasks packages_to_process w))))),
     snd (run_tasks packages_to_process w))
  /\ map fst (fst (run_tasks packages_to_process w)) = packages_to_process.
Proof.
  split; [| apply run_tasks_packages].
  unfold detail_phase. unfold bind at 1.
  pose proof (submit_all packages_to_process [] w) as E.
  unfold bind in E. unfold bind at 1. rewrite E. cbv iota beta.
  change ([] ++ fst (run_tasks packages_to_process w))
    with (fst (run_tasks packages_to_process w)).
  rewrite read_all; [reflexivity |].
  apply Forall_forall. intros f Hf. apply Hcompleted in Hf.
  rewrite <- (run_tasks_packages packages_to_process w) in Hdicts.
  rewrite Forall_map in Hdicts. rewrite Forall_forall in Hdicts.
  now apply Hdicts.
Qed.

End Pool.

(** The task of package 3 raises [TypeError] (its list of tours is a
    number); the records of the detail phase are those of package 2. *)
Lemma detail_phase_survives_failed_tasks_witness :
  let w : world body :=
    fresh (Doubles.served (Doubles.broken_site (map JObj two_questions)))
          Doubles.lower in
  let pkgs := [Doubles.pkg3; Doubles.pkg2021] in
  let pool :=
    run_tasks Doubles.repr Doubles.json_dumps Doubles.unlimited pkgs w in
  map snd (fst pool)
  = [Raise TypeError;
     Ok (map (flat_of Doubles.json_dumps package_2 tour_20) two_questions)]
  /\ detail_phase Doubles.repr Doubles.json_dumps Doubles.as_completed
                  pkgs Doubles.unlimited w
     = (Ok (map (flat_of Doubles.json_dumps package_2 tour_20) two_questions),
        snd pool).
Proof.
  intros w pkgs pool. split; [reflexivity |].
  apply (proj1 (detail_phase_survives_failed_tasks Doubles.repr
                  Doubles.json_dumps Doubles.as_completed Doubles.unlimited
                  pkgs w (fun A l x H => H)
                  (Forall_cons _ (ex_intro _ _ eq_refl)
                     (Forall_cons _ (ex_intro _ _ eq_refl) (Forall_nil _))))).
Defined.

End DbMore.

(* ================================================================== *)
(** * Facts about src/to_json_for_label_studio.py *)
(* ================================================================== *)

Module LabelStudioFacts.

Import LabelStudio.
Local Open Scope N_scope.

Definition space (c : N) : Prop := isspace c = true.

Lemma lstrip_split (s : text) :
  exists l, s = l ++ lstrip s /\ Forall space l.
Proof.
  induction s as [| c s (l & E & Hl)]; simpl.
  - exists []. auto.
  - destruct (isspace c) eqn:Hc.
    + exists (c :: l). split; [simpl; now f_equal | now constructor].
    + exists []. auto.
Qed.

Lemma lstrip_head (s : text) (c : N) (rest : text) :
  lstrip s = c :: rest -> isspace c = false.
Proof.
  induction s as [| x s IH]; simpl; [discriminate |].
  destruct (isspace x) eqn:Hx; [exact IH |].
  intros H. inversion H; subst. exact Hx.
Qed.

Lemma lstrip_fixed (s : text) :
  (forall c rest, s = c :: rest -> isspace c = false) -> lstrip s = s.
Proof.
  destruct s as [| c rest]; simpl; trivial. intros H.
  now rewrite (H c rest eq_refl).
Qed.

Lemma rstrip_split (s : text) :
  exists r, s = rstrip s ++ r /\ Forall space r.
Proof.
  unfold rstrip. destruct (lstrip_split (rev s)) as (l & E & Hl).
  exists (rev l). split; [| now apply Forall_rev].
  rewrite <- rev_app_distr, <- E. symmetry. apply rev_involutive.
Qed.

Lemma rstrip_last (s : text) (rest : text) (c : N) :
  rstrip s = rest ++ [c] -> isspace c = false.
Proof.
  unfold rstrip. intros H. apply (f_equal (@rev N)) in H.
  rewrite rev_involutive, rev_app_distr in H. simpl in H.
  now apply lstrip_head in H.
Qed.

(** The first character survives [rstrip] unless everything goes. *)
Lemma rstrip_keeps_head (s : text) (c : N) (rest : text) :
  rstrip s = c :: rest -> exists rest', s = c :: rest'.
Proof.
  intros H. destruct (rstrip_split s) as (r & E & _).
  rewrite H in E. simpl in E. eauto.
Qed.

(** X19. The text of a task is the full text of its row without the
    whitespace at its two ends, and nothing else is removed: the task text
    neither starts nor ends with a whitespace character. *)
Theorem task_text_is_trimmed (r : row) :
  (exists before after,
     full_text r = before ++ task_text r ++ after
     /\ Forall space before /\ Forall space after)
  /\ (forall c rest, task_text r = c :: rest -> isspace c = false)
  /\ (forall rest c, task_text r = rest ++ [c] -> isspace c = false).
Proof.
  unfold task_text, strip. split; [| split].
  - destruct (lstrip_split (full_text r)) as (l & El & Hl).
    destruct (rstrip_split (lstrip (full_text r))) as (t & Et & Ht).
    exists l, t. split; [| auto]. rewrite <- Et. exact El.
  - intros c rest H.
    destruct (rstrip_keeps_head _ _ _ H) as (rest' & E).
    now apply lstrip_head in E.
  - intros rest c. apply rstrip_last.
Qed.

Lemma rstrip_fixed (s : text) :
  (forall rest c, s = rest ++ [c] -> isspace c = false) -> rstrip s = s.
Proof.
  intros Hlast. unfold rstrip. rewrite lstrip_fixed; [apply rev_involutive |].
  intros c rest E. apply (Hlast (rev rest) c).
  rewrite <- (rev_involutive s), E. reflexivity.
Qed.

Lemma last_of_app (l s rest : text) (c : N) :
  s <> [] -> l ++ s = rest ++ [c] -> exists rest', s = rest' ++ [c].
Proof.
  intros Hne E. destruct (exists_last Hne) as (rest' & z & ->).
  rewrite app_assoc in E. apply app_inj_tail in E as [_ ->]. eauto.
Qed.

(** X20. A null cell counts as an empty one, and an empty answer or comment
    leaves no section behind.  A row with only an answer, whose last
    character is no whitespace, gives the label line and the answer,
    without the two line feeds that precede the label; a row with nothing
    still gives a task, with an empty text. *)
Theorem sections_of_a_row (answer : text) :
  (forall r,
     task_text r
     = task_text (Row (Some (fillna (r_text r))) (Some (fillna (r_answer r)))
                      (Some (fillna (r_comment r)))))
  /\ (forall q, task_text (Row q None (Some [])) = strip (fillna q))
  /\ task_text (Row None (Some []) None) = []
  /\ (answer <> [] ->
      (forall rest c, answer = rest ++ [c] -> isspace c = false) ->
      task_text (Row None (Some answer) None)
      = [1054; 1058; 1042; 1045; 1058; 58; 10] ++ answer).
Proof.
  split; [| split; [| split]].
  - intros [q a c]. reflexivity.
  - intros q. unfold task_text, full_text. simpl. now rewrite app_nil_r.
  - reflexivity.
  - intros Hne Hlast. unfold task_text, full_text. simpl fillna.
    destruct answer as [| a0 answer']; [congruence |].
    rewrite app_nil_r. simpl app at 1. unfold strip.
    change (lstrip (answer_label ++ a0 :: answer'))
      with ([1054; 1058; 1042; 1045; 1058; 58; 10] ++ a0 :: answer').
    apply rstrip_fixed. intros rest c E.
    destruct (last_of_app _ _ _ _ Hne E) as (rest' & E').
    now apply (Hlast rest' c).
Qed.

Lemma sections_of_a_row_witness :
  task_text (Row None (Some [1044; 1072]) None)
  = [1054; 1058; 1042; 1045; 1058; 58; 10] ++ [1044; 1072].
Proof.
  apply (proj2 (proj2 (proj2 (sections_of_a_row [1044; 1072])))).
  - discriminate.
  - intros rest c E.
    assert (Hc : c = 1072).
    { apply (f_equal (@rev N)) in E. rewrite rev_app_distr in E.
      simpl in E. now inversion E. }
    subst c. reflexivity.
Defined.

End LabelStudioFacts.
